(** * OTP issuance/verification over a dual-backend ephemeral store

    A shallow embedding of [redis_helper.py] and of the OTP, resend-cooldown
    and rate-limiting code of [app.py], together with the properties the
    specification states about them.

    Conventions of the embedding.
    - Time is a [Z] counting microseconds (the resolution of Python's
      [datetime]); every call of [datetime.now()] made while one function
      runs is the same instant, passed as the argument [now].  The Redis
      server reads the same clock.  The rate limiter of the route is
      modelled more finely: it reads the counter with one command and writes
      it with another, and the two reach the server at the instants [read]
      and [now].
    - A Python call is a computation in the monad [M S A]: it threads a state
      [S] and either returns a value or raises an exception.  State changes
      made before an exception is raised persist, as in Python.
    - Python [str] is [string]; [int]/[str] conversions are the decimal
      numerals of the Standard Library.
    - What the specification puts outside the core is an input of the
      request ([env]): the random draw of [generate_otp], the verdict of the
      phone validator (its result cache is left out), the mailer, and the
      persistence of a verified submission.  Of a response the template's
      [step] and [email] arguments and the flashed messages are kept. *)

From Stdlib Require Import ZArith String Ascii Bool Lia.
From Stdlib Require Import DecimalString DecimalZ DecimalPos DecimalFacts.
From stdpp Require Import base option list gmap strings fin_maps.

Local Open Scope string_scope.
Local Open Scope Z_scope.

(** ** Python values, exceptions and the state-and-exception monad *)

Module Py.

(** Exceptions that derive from [Exception].  ([KeyboardInterrupt] and
    [SystemExit] derive from [BaseException] only and are not modelled.) *)
Inductive exn : Type :=
  | ConnectionError
  | TimeoutError
  | ResponseError
  | DataError
  | ValueError
  | TypeError
  | RuntimeError
  | SMTPException
  | OtherException (name : string).

Inductive outcome (A : Type) : Type :=
  | Returns (a : A)
  | Raises (e : exn).
Arguments Returns {A} a.
Arguments Raises {A} e.

Definition M (S A : Type) : Type := S -> S * outcome A.

Definition ret {S A : Type} (a : A) : M S A := fun s => (s, Returns a).

Definition raise {S A : Type} (e : exn) : M S A := fun s => (s, Raises e).

Definition bind {S A B : Type} (m : M S A) (k : A -> M S B) : M S B :=
  fun s =>
    match m s with
    | (s', Returns a) => k a s'
    | (s', Raises e) => (s', Raises e)
    end.

(** [try: body / except Exception as e: handler e] *)
Definition try_except {S A : Type} (body : M S A) (handler : exn -> M S A)
  : M S A :=
  fun s =>
    match body s with
    | (s', Returns a) => (s', Returns a)
    | (s', Raises e) => handler e s'
    end.

Definition gets {S A : Type} (f : S -> A) : M S A := fun s => (s, Returns (f s)).

Definition modify {S : Type} (f : S -> S) : M S unit := fun s => (f s, Returns tt).

(** Run a computation on a component of a larger state. *)
Definition zoom {S T A : Type} (proj : S -> T) (upd : T -> S -> S) (m : M T A)
  : M S A :=
  fun s => let (t', r) := m (proj s) in (upd t' s, r).

Definition returned {A : Type} (r : outcome A) : bool :=
  match r with Returns _ => true | Raises _ => false end.

(** [str(n)] for an [int] [n]. *)
Definition str_of_int (n : Z) : string := NilZero.string_of_int (Z.to_int n).

(** [int(s)] for a [str] [s]: [None] stands for [ValueError].  Python also
    accepts surrounding white space, a [+] sign and underscores; no string
    written by this program has them. *)
Definition int_of_str (s : string) : option Z :=
  Z.of_int <$> NilZero.int_of_string s.

(** A value passed to [redis_client.set]: [Union[str, int]]. *)
Inductive strint : Type :=
  | PStr (s : string)
  | PInt (n : Z).

(** Truthiness of an [Optional[str]]: [None] and [''] are falsy. *)
Definition truthy (o : option string) : bool :=
  match o with
  | Some s => negb (String.eqb s "")
  | None => false
  end.

End Py.

Export Py.

Notation "'let!' x ':=' m 'in' k" := (bind m (fun x => k))
  (at level 10, x name, m at level 100, k at level 200).
Notation "m ';;' k" := (bind m (fun _ => k))
  (at level 100, k at level 200, right associativity).

(** ** The Redis server and its client library

    The server is an external service.  Its model keeps one keyspace whose
    values are strings or hashes, each with an optional absolute expiry
    instant; a key whose expiry has passed is absent.  [up = false] is an
    outage: every command raises [ConnectionError]. *)

Module Redis.

Definition usec : Z := 1000000.

Inductive rvalue : Type :=
  | RString (s : string)
  | RHash (h : gmap string string).

Record entry : Type := Entry { e_val : rvalue; e_exp : option Z }.

Record server : Type := Server { db : gmap string entry; up : bool }.

(** The key expired if the current time is greater than its expire time. *)
Definition live (now : Z) (e : entry) : bool :=
  match e_exp e with
  | Some t => now <=? t
  | None => true
  end.

Definition fetch (now : Z) (d : gmap string entry) (k : string) : option entry :=
  match d !! k with
  | Some e => if live now e then Some e else None
  | None => None
  end.

Definition with_db (f : gmap string entry -> gmap string entry) (s : server)
  : server :=
  {| db := f (db s); up := up s |}.

(** An outage begins ([false]) or ends ([true]); the data stays. *)
Definition with_up (b : bool) (s : server) : server :=
  {| db := db s; up := b |}.

Definition int64_min : Z := - 2 ^ 63.
Definition int64_max : Z := 2 ^ 63 - 1.
Definition in_int64 (n : Z) : bool := (int64_min <=? n) && (n <=? int64_max).

(** Every command first needs the connection. *)
Definition command {A : Type} (m : M server A) : M server A :=
  fun s => if up s then m s else (s, Raises ConnectionError).

Definition PING : M server bool := command (ret true).

Definition GET (now : Z) (key : string) : M server (option string) :=
  command (fun s =>
    match fetch now (db s) key with
    | None => (s, Returns None)
    | Some (Entry (RString v) _) => (s, Returns (Some v))
    | Some (Entry (RHash _) _) => (s, Raises ResponseError)
    end).

(** [SET key value [EX seconds]]: replaces value, type and expiry. *)
Definition SET (now : Z) (key value : string) (ex : option Z) : M server bool :=
  command (fun s =>
    match ex with
    | Some n =>
        if n <=? 0 then (s, Raises ResponseError)
        else (with_db <[key := Entry (RString value) (Some (now + n * usec))]> s,
              Returns true)
    | None => (with_db <[key := Entry (RString value) None]> s, Returns true)
    end).

Definition HGET (now : Z) (name key : string) : M server (option string) :=
  command (fun s =>
    match fetch now (db s) name with
    | None => (s, Returns None)
    | Some (Entry (RHash h) _) => (s, Returns (h !! key))
    | Some (Entry (RString _) _) => (s, Raises ResponseError)
    end).

(** Write the items of a mapping into a hash, in order. *)
Definition hash_update (items : list (string * string)) (h : gmap string string)
  : gmap string string :=
  foldl (fun acc kv => <[kv.1 := kv.2]> acc) h items.

(** [HSET name field value [field value ...]]: the reply is the number of
    fields that were added.  redis-py refuses an empty mapping. *)
Definition HSET (now : Z) (name : string) (items : list (string * string))
  : M server Z :=
  match items with
  | [] => raise DataError
  | _ :: _ =>
      command (fun s =>
        match fetch now (db s) name with
        | None =>
            let h := hash_update items ∅ in
            (with_db <[name := Entry (RHash h) None]> s,
             Returns (Z.of_nat (size h)))
        | Some (Entry (RHash h0) ex) =>
            let h := hash_update items h0 in
            (with_db <[name := Entry (RHash h) ex]> s,
             Returns (Z.of_nat (size h) - Z.of_nat (size h0)))
        | Some (Entry (RString _) _) => (s, Raises ResponseError)
        end)
  end.

(** [EXPIRE name seconds]: a timeout that is not positive deletes the key. *)
Definition EXPIRE (now : Z) (name : string) (time : Z) : M server bool :=
  command (fun s =>
    match fetch now (db s) name with
    | None => (s, Returns false)
    | Some (Entry v _) =>
        if time <=? 0 then (with_db (delete name) s, Returns true)
        else (with_db <[name := Entry v (Some (now + time * usec))]> s,
              Returns true)
    end).

Fixpoint del_keys (now : Z) (names : list string) (d : gmap string entry)
  : gmap string entry * Z :=
  match names with
  | [] => (d, 0)
  | k :: rest =>
      match fetch now d k with
      | Some _ => let (d', n) := del_keys now rest (delete k d) in (d', 1 + n)
      | None => del_keys now rest (delete k d)
      end
  end.

(** [DEL key [key ...]]: the reply is the number of keys removed. *)
Definition DEL (now : Z) (names : list string) : M server Z :=
  match names with
  | [] => command (raise ResponseError)
  | _ :: _ =>
      command (fun s =>
        let (d', n) := del_keys now names (db s) in
        ({| db := d'; up := up s |}, Returns n))
  end.

Definition EXISTS (now : Z) (name : string) : M server Z :=
  command (fun s =>
    match fetch now (db s) name with
    | Some _ => (s, Returns 1)
    | None => (s, Returns 0)
    end).

(** [INCRBY name amount]: an absent key counts from 0 and gets no expiry; an
    existing one keeps its expiry. *)
Definition INCRBY (now : Z) (name : string) (amount : Z) : M server Z :=
  command (fun s =>
    if negb (in_int64 amount) then (s, Raises ResponseError) else
    match fetch now (db s) name with
    | None =>
        (with_db <[name := Entry (RString (str_of_int amount)) None]> s,
         Returns amount)
    | Some (Entry (RString v) ex) =>
        match int_of_str v with
        | Some n =>
            if in_int64 n && in_int64 (n + amount)
            then (with_db <[name := Entry (RString (str_of_int (n + amount))) ex]> s,
                  Returns (n + amount))
            else (s, Raises ResponseError)
        | None => (s, Raises ResponseError)
        end
    | Some (Entry (RHash _) _) => (s, Raises ResponseError)
    end).

Definition hincr_field (h : gmap string string) (key : string) (amount : Z)
  : option (gmap string string * Z) :=
  match h !! key with
  | None => Some (<[key := str_of_int amount]> h, amount)
  | Some v =>
      match int_of_str v with
      | Some n =>
          if in_int64 n && in_int64 (n + amount)
          then Some (<[key := str_of_int (n + amount)]> h, n + amount)
          else None
      | None => None
      end
  end.

Definition HINCRBY (now : Z) (name key : string) (amount : Z) : M server Z :=
  command (fun s =>
    if negb (in_int64 amount) then (s, Raises ResponseError) else
    match fetch now (db s) name with
    | None =>
        (with_db <[name := Entry (RHash {[key := str_of_int amount]}) None]> s,
         Returns amount)
    | Some (Entry (RHash h) ex) =>
        match hincr_field h key amount with
        | Some (h', n) => (with_db <[name := Entry (RHash h') ex]> s, Returns n)
        | None => (s, Raises ResponseError)
        end
    | Some (Entry (RString _) _) => (s, Raises ResponseError)
    end).

End Redis.

(** The part of redis-py's [redis.Redis] that [RedisHelper] calls.  [C] is
    whatever stands behind the connection; an implementation may answer or
    raise as it likes. *)
Class RedisClient (C : Type) : Type := {
  client_ping : Z -> M C bool;
  client_get : Z -> string -> M C (option string);
  client_set : Z -> string -> strint -> option Z -> M C (option bool);
  client_hget : Z -> string -> string -> M C (option string);
  client_hset : Z -> string -> list (string * string) -> M C Z;
  client_expire : Z -> string -> Z -> M C bool;
  client_delete : Z -> list string -> M C Z;
  client_exists : Z -> string -> M C Z;
  client_incr : Z -> string -> Z -> M C (option Z);
  client_hincrby : Z -> string -> string -> Z -> M C (option Z)
}.

(** redis-py sends an [int] value as its decimal numeral. *)
Definition encode (v : strint) : string :=
  match v with
  | PStr s => s
  | PInt n => str_of_int n
  end.

#[export] Instance server_client : RedisClient Redis.server := {
  client_ping _ := Redis.PING;
  client_get := Redis.GET;
  client_set now key value ex :=
    let! ok := Redis.SET now key (encode value) ex in ret (Some ok);
  client_hget := Redis.HGET;
  client_hset := Redis.HSET;
  client_expire := Redis.EXPIRE;
  client_delete := Redis.DEL;
  client_exists := Redis.EXISTS;
  client_incr now name amount :=
    let! n := Redis.INCRBY now name amount in ret (Some n);
  client_hincrby now name key amount :=
    let! n := Redis.HINCRBY now name key amount in ret (Some n)
}.

(** ** Rendering instants as text

    [datetime.strftime], [datetime.isoformat] and [datetime.fromisoformat]
    are library functions of the calendar; the program only relies on
    [fromisoformat] reading back what [isoformat] wrote. *)
Class Datetime : Type := {
  strftime_hour : Z -> string;           (* strftime('%Y-%m-%d:%H') *)
  strftime_day : Z -> string;            (* strftime('%Y-%m-%d') *)
  isoformat : Z -> string;
  fromisoformat : string -> option Z     (* [None] stands for [ValueError] *)
}.

Class DatetimeLaws `{Datetime} : Prop := {
  fromisoformat_isoformat : forall t : Z, fromisoformat (isoformat t) = Some t;
  isoformat_nonempty : forall t : Z, isoformat t <> ""
}.

(** ** redis_helper.py *)

Module redis_helper.

(** The object [redis.from_url] builds. *)
Inductive Redis : Type := from_url (url : string).

Record RedisHelper : Type := {
  redis_url : string;
  redis_client : option Redis;
  redis_available : bool
}.

Definition set_redis_client (c : option Redis) (self : RedisHelper) : RedisHelper :=
  {| redis_url := redis_url self;
     redis_client := c;
     redis_available := redis_available self |}.

Definition set_redis_available (b : bool) (self : RedisHelper) : RedisHelper :=
  {| redis_url := redis_url self;
     redis_client := redis_client self;
     redis_available := b |}.

(** [redis.from_url] raises [ValueError] unless the URL has one of the
    three schemes it knows. *)
Definition valid_scheme (url : string) : bool :=
  String.prefix "redis://" url || String.prefix "rediss://" url
  || String.prefix "unix://" url.

Section Methods.
Context {C : Type} `{RedisClient C}.

Definition on_self {A : Type} (m : M RedisHelper A) : M (RedisHelper * C) A :=
  zoom fst (fun h st => (h, st.2)) m.

Definition on_client {A : Type} (m : M C A) : M (RedisHelper * C) A :=
  zoom snd (fun c st => (st.1, c)) m.

(** Initialize Redis connection with fallback.  The state is the helper
    object together with what stands behind the connection. *)
Definition _connect (now : Z) : M (RedisHelper * C) unit :=
  try_except
    (let! url := on_self (gets redis_url) in
     (if valid_scheme url
      then on_self (modify (set_redis_client (Some (from_url url))))
      else raise ValueError) ;;
     let! client := on_self (gets redis_client) in
     match client with
     | Some _ =>
         on_client (client_ping now) ;;
         on_self (modify (set_redis_available true))
     | None => ret tt
     end)
    (fun _ => on_self (modify (set_redis_available false))).

Definition __init__ (url : string) (now : Z) : M C RedisHelper :=
  fun c =>
    let self := {| redis_url := url;
                   redis_client := None;
                   redis_available := false |} in
    match _connect now (self, c) with
    | (st, Returns _) => (st.2, Returns st.1)
    | (st, Raises e) => (st.2, Raises e)
    end.

(** Check if Redis is available *)
Definition is_available (self : RedisHelper) : bool :=
  redis_available self && bool_decide (redis_client self <> None).

(** [not self.is_available() or not self.redis_client] *)
Definition unusable (self : RedisHelper) : bool :=
  negb (is_available self) || negb (bool_decide (redis_client self <> None)).

Definition get (self : RedisHelper) (now : Z) (key : string)
    (default : option string) : M C (option string) :=
  if unusable self then ret default else
  try_except
    (let! result := client_get now key in
     ret (match result with Some r => Some r | None => default end))
    (fun _ => ret default).

Definition set (self : RedisHelper) (now : Z) (key : string) (value : strint)
    (ex : option Z) : M C bool :=
  if unusable self then ret false else
  try_except
    (let! result := client_set now key value ex in
     ret (match result with Some b => b | None => false end))
    (fun _ => ret false).

Definition hget (self : RedisHelper) (now : Z) (name key : string)
    (default : option string) : M C (option string) :=
  if unusable self then ret default else
  try_except
    (let! result := client_hget now name key in
     ret (match result with Some r => Some r | None => default end))
    (fun _ => ret default).

Definition hset (self : RedisHelper) (now : Z) (name : string)
    (mapping : list (string * string)) : M C bool :=
  if unusable self then ret false else
  try_except
    (let! result := client_hset now name mapping in
     ret (negb (result =? 0)))
    (fun _ => ret false).

Definition expire (self : RedisHelper) (now : Z) (name : string) (time : Z)
  : M C bool :=
  if unusable self then ret false else
  try_except
    (let! result := client_expire now name time in ret result)
    (fun _ => ret false).

Definition delete (self : RedisHelper) (now : Z) (names : list string)
  : M C bool :=
  if unusable self then ret false else
  try_except
    (let! result := client_delete now names in
     ret (negb (result =? 0)))
    (fun _ => ret false).

Definition exists_ (self : RedisHelper) (now : Z) (name : string) : M C bool :=
  if unusable self then ret false else
  try_except
    (let! result := client_exists now name in
     ret (negb (result =? 0)))
    (fun _ => ret false).

(** [int(str(result))] of an [int] is that [int]; the conversion is kept
    so that its [ValueError] has a place to be caught. *)
Definition int_str (n : Z) : M C Z :=
  match int_of_str (str_of_int n) with
  | Some m => ret m
  | None => raise ValueError
  end.

Definition incr (self : RedisHelper) (now : Z) (name : string) (amount : Z)
  : M C (option Z) :=
  if unusable self then ret None else
  try_except
    (let! result := client_incr now name amount in
     match result with
     | Some n => let! m := int_str n in ret (Some m)
     | None => ret None
     end)
    (fun _ => ret None).

Definition hincrby (self : RedisHelper) (now : Z) (name key : string)
    (amount : Z) : M C (option Z) :=
  if unusable self then ret None else
  try_except
    (let! result := client_hincrby now name key amount in
     match result with
     | Some n => let! m := int_str n in ret (Some m)
     | None => ret None
     end)
    (fun _ => ret None).

(** Track application metrics in Redis *)
Definition track_metric `{Datetime} (self : RedisHelper) (now : Z)
    (metric_name : string) (value : Z) : M C unit :=
  let hour_key := "metrics:" +:+ metric_name +:+ ":" +:+ strftime_hour now in
  let day_key := "metrics:" +:+ metric_name +:+ ":" +:+ strftime_day now in
  incr self now hour_key value ;;
  expire self now hour_key (86400 * 7) ;;
  incr self now day_key value ;;
  expire self now day_key (86400 * 30) ;;
  ret tt.

End Methods.

End redis_helper.

(** ** app.py: OTP storage, verification, rate limiting and resend *)

Module app.

Import Redis redis_helper.

(** *** Strings

    A character of a [string] is a Python code point below 256. *)

Definition isspace (a : ascii) : bool :=
  let n := nat_of_ascii a in
  ((9 <=? n) && (n <=? 13) || (28 <=? n) && (n <=? 32)
   || (n =? 133) || (n =? 160))%nat.

Fixpoint lstrip (s : string) : string :=
  match s with
  | String a rest => if isspace a then lstrip rest else s
  | EmptyString => EmptyString
  end.

Fixpoint rstrip (s : string) : string :=
  match s with
  | String a rest =>
      match rstrip rest with
      | EmptyString => if isspace a then EmptyString else String a EmptyString
      | rest' => String a rest'
      end
  | EmptyString => EmptyString
  end.

(** [s.strip()] *)
Definition strip (s : string) : string := rstrip (lstrip s).

(** [s.lower()] on the ASCII letters. *)
Definition lower_char (a : ascii) : ascii :=
  let n := nat_of_ascii a in
  if ((65 <=? n) && (n <=? 90))%nat then ascii_of_nat (n + 32) else a.

Fixpoint lower (s : string) : string :=
  match s with
  | String a rest => String (lower_char a) (lower rest)
  | EmptyString => EmptyString
  end.

(** [needle in s] *)
Fixpoint contains (needle s : string) : bool :=
  String.prefix needle s
  || match s with
     | String _ rest => contains needle rest
     | EmptyString => false
     end.

Definition nonempty (s : string) : bool := negb (String.eqb s "").

(** *** State *)

(** A value of the in-memory [otp_storage] dict. *)
Record otp_data : Type := {
  otp : string;
  expires_at : Z;
  attempts : Z
}.

(** [session['form_data']] *)
Record form_data : Type := {
  first_name : string;
  last_name : string;
  phone : string;
  email : string;
  comments : string
}.

(** The mutable state the handlers share: the global [redis_helper]
    instance, the server behind it, the two module-level dicts, and the
    Flask sessions (keyed by session cookie; how Flask stores them is not
    modelled). *)
Record world : Type := {
  helper : RedisHelper;
  redis : server;
  otp_storage : gmap string otp_data;
  otp_resend_cooldown : gmap string Z;
  sessions : gmap string form_data
}.

Definition set_redis (r : server) (w : world) : world :=
  {| helper := helper w; redis := r; otp_storage := otp_storage w;
     otp_resend_cooldown := otp_resend_cooldown w; sessions := sessions w |}.

Definition upd_otp_storage (f : gmap string otp_data -> gmap string otp_data)
    (w : world) : world :=
  {| helper := helper w; redis := redis w; otp_storage := f (otp_storage w);
     otp_resend_cooldown := otp_resend_cooldown w; sessions := sessions w |}.

Definition upd_otp_resend_cooldown (f : gmap string Z -> gmap string Z)
    (w : world) : world :=
  {| helper := helper w; redis := redis w; otp_storage := otp_storage w;
     otp_resend_cooldown := f (otp_resend_cooldown w); sessions := sessions w |}.

Definition upd_sessions (f : gmap string form_data -> gmap string form_data)
    (w : world) : world :=
  {| helper := helper w; redis := redis w; otp_storage := otp_storage w;
     otp_resend_cooldown := otp_resend_cooldown w; sessions := f (sessions w) |}.

(** A call of a [redis_helper] method from the application. *)
Definition on_redis {A : Type} (m : M server A) : M world A :=
  zoom redis set_redis m.

(** *** OTP storage *)

Section OTP.
Context `{Datetime}.

(** Clean up expired OTP data and old cooldown entries *)
Definition cleanup_old_data (now : Z) : M world unit :=
  let current_time := now in
  let! rh := gets helper in
  if is_available rh then
    ret tt
  else
    modify (upd_otp_storage
              (filter (fun kv => negb (expires_at kv.2 <? current_time)))) ;;
    modify (upd_otp_resend_cooldown
              (filter (fun kv => negb (3600 * usec <? current_time - kv.2)))).

(** Store OTP with expiration time (5 minutes) - Redis or fallback *)
Definition store_otp (now : Z) (email otp : string) : M world unit :=
  let expiration := now + 5 * 60 * usec in
  let! rh := gets helper in
  if is_available rh then
    let key := "otp:" +:+ email in
    let data := [("otp", otp); ("attempts", "0");
                 ("created_at", isoformat now)] in
    on_redis (hset rh now key data) ;;
    on_redis (expire rh now key 300) ;;
    on_redis (track_metric rh now "otp_generated" 1)
  else
    modify (upd_otp_storage
              <[email := {| otp := otp; expires_at := expiration;
                            attempts := 0 |}]>).

(** Verify OTP and check if it's still valid - Redis or fallback *)
Definition verify_otp (now : Z) (email submitted_otp : string)
  : M world (bool * string) :=
  let! rh := gets helper in
  if is_available rh then
    let key := "otp:" +:+ email in
    let! found := on_redis (exists_ rh now key) in
    if negb found then ret (false, "OTP not found or expired") else
    let! stored_otp := on_redis (hget rh now key "otp" None) in
    let! attempts_str := on_redis (hget rh now key "attempts" (Some "0")) in
    let! attempts :=
      (if truthy attempts_str
       then match int_of_str (default "" attempts_str) with
            | Some n => ret n
            | None => raise ValueError
            end
       else ret 0) in
    if bool_decide (stored_otp = Some submitted_otp) then
      on_redis (delete rh now [key]) ;;
      on_redis (track_metric rh now "otp_verified_success" 1) ;;
      ret (true, "OTP verified successfully")
    else
      let new_attempts := attempts + 1 in
      if 3 <=? new_attempts then
        on_redis (delete rh now [key]) ;;
        on_redis (track_metric rh now "otp_too_many_attempts" 1) ;;
        ret (false, "Too many incorrect attempts")
      else
        on_redis (hincrby rh now key "attempts" 1) ;;
        on_redis (track_metric rh now "otp_verification_failed" 1) ;;
        let remaining_attempts := 3 - new_attempts in
        ret (false, "Invalid OTP. " +:+ str_of_int remaining_attempts
                      +:+ " attempt(s) remaining")
  else
    let! storage := gets otp_storage in
    match storage !! email with
    | None => ret (false, "OTP not found")
    | Some stored_data =>
        if expires_at stored_data <? now then
          modify (upd_otp_storage (base.delete email)) ;;
          ret (false, "OTP has expired")
        else if 3 <=? attempts stored_data then
          modify (upd_otp_storage (base.delete email)) ;;
          ret (false, "Too many incorrect attempts")
        else if String.eqb (otp stored_data) submitted_otp then
          modify (upd_otp_storage (base.delete email)) ;;
          ret (true, "OTP verified successfully")
        else
          modify (upd_otp_storage
                    <[email := {| otp := otp stored_data;
                                  expires_at := expires_at stored_data;
                                  attempts := attempts stored_data + 1 |}]>) ;;
          ret (false, "Invalid OTP")
    end.

End OTP.

(** *** Requests, responses and external collaborators *)

Inductive http_method : Type := GET_request | POST_request.

Record request : Type := {
  method : http_method;
  form : gmap string string;      (* request.form *)
  client_ip : string;             (* HTTP_X_FORWARDED_FOR, else remote_addr *)
  sid : string                    (* the session cookie *)
}.

(** [request.form.get(name, default)] *)
Definition form_get (req : request) (name default : string) : string :=
  match form req !! name with
  | Some v => v
  | None => default
  end.

(** What the world outside the core does during one request: the clock,
    the random draw of [generate_otp], the verdict of the phone validator,
    the mailer, and the submission store.  [env_now] is the instant of the
    request.  The rate limiter of the route talks to Redis twice, first to
    read the counter and then to write it: the read, the first thing a
    rate-limited request asks of Redis, reaches the server at [env_read],
    the write and everything after it at [env_now]. *)
Record env : Type := {
  env_read : Z;
  env_now : Z;
  env_random_otp : string;
  env_phone_ok : string -> bool;
  env_smtp : option exn;          (* [None]: delivered; [Some e]: raises e *)
  env_submission_id : string;
  env_local_file_ok : bool
}.

(** The messages handed to [flash].  The user-facing wording is not kept;
    the parameters that the wording interpolates are. *)
Inductive flash : Type :=
  | TooManySubmissions
  | TooManyVerifications
  | InvalidRequest
  | SpamDetected
  | NameRequired
  | EmailRequired
  | CommentsRequired
  | PhoneInvalid
  | CommentsTooLong
  | OtpSent (email : string)
  | OtpMailFailed (e : exn)
  | EnterCode
  | VerificationError (message : string)
  | FormDataExpired
  | SubmissionAccepted (submission_id : string)
  | MailFailed (e : exn)
  | SavedLocally
  | DeclarationSent
  | WaitSeconds (remaining_time : Z)
  | NewOtpSent (email : string).

(** A response together with the messages flashed while producing it. *)
Inductive response : Type :=
  | render_template (step : string) (email : option string) (flashes : list flash)
  | redirect_index (flashes : list flash).

Definition flashes_of (r : response) : list flash :=
  match r with
  | render_template _ _ fl => fl
  | redirect_index fl => fl
  end.

Section Handlers.
Context `{Datetime}.

(** [track_metric] as called from app.py, on the global helper. *)
Definition track_metric (now : Z) (metric_name : string) : M world unit :=
  let! rh := gets helper in
  on_redis (redis_helper.track_metric rh now metric_name 1).

(** Generate a 6-digit OTP *)
Definition generate_otp (e : env) : string := env_random_otp e.

(** Simple utility to send email *)
Definition send_email (e : env) : M world unit :=
  match env_smtp e with
  | None => ret tt
  | Some x => raise x
  end.

(** Send OTP to user's email *)
Definition send_otp_email (e : env) (email otp : string) : M world unit :=
  send_email e ;;
  track_metric (env_now e) "otp_email_sent".

(** Handle initial form submission and send OTP *)
Definition handle_form_submission (e : env) (req : request) : M world response :=
  let honeypot := form_get req "url_field" "" in
  if nonempty honeypot then ret (redirect_index [SpamDetected]) else
  let first_name := strip (form_get req "first_name" "") in
  let last_name := strip (form_get req "last_name" "") in
  let phone := strip (form_get req "phone" "") in
  let email := strip (form_get req "email" "") in
  let comments := strip (form_get req "comments" "") in
  let errors :=
    ((if negb (nonempty first_name && nonempty last_name)
      then [NameRequired] else [])
     ++ (if negb (nonempty email) then [EmailRequired] else [])
     ++ (if negb (nonempty comments) then [CommentsRequired] else [])
     ++ (if nonempty phone && negb (env_phone_ok e phone)
         then [PhoneInvalid] else [])
     ++ (if (500 <? String.length comments)%nat
         then [CommentsTooLong] else []))%list in
  match errors with
  | _ :: _ => ret (render_template "form" None errors)
  | [] =>
      modify (upd_sessions
                <[sid req := {| first_name := first_name;
                                last_name := last_name;
                                phone := phone;
                                email := email;
                                comments := comments |}]>) ;;
      let otp := generate_otp e in
      store_otp (env_now e) email otp ;;
      try_except
        (send_otp_email e email otp ;;
         track_metric (env_now e) "form_to_otp_success" ;;
         ret (render_template "otp" (Some email) [OtpSent email]))
        (fun x =>
           track_metric (env_now e) "otp_email_failed" ;;
           ret (render_template "form" None [OtpMailFailed x]))
  end.

(** Process the submission after OTP verification.  Saving the record
    (MongoDB or the JSON file) belongs to the external persistence. *)
Definition process_verified_submission (e : env) (req : request)
    (fd : form_data) : M world response :=
  let submission_id := env_submission_id e in
  try_except
    (send_email e ;;
     track_metric (env_now e) "form_submission_success" ;;
     modify (upd_sessions (base.delete (sid req))) ;;
     ret (redirect_index [SubmissionAccepted submission_id; DeclarationSent]))
    (fun x =>
       track_metric (env_now e) "form_submission_failed" ;;
       ret (render_template "form" None
              (MailFailed x :: if env_local_file_ok e then [SavedLocally] else []))).

(** Handle OTP verification and complete the submission *)
Definition handle_otp_verification (e : env) (req : request) : M world response :=
  let email := strip (form_get req "email" "") in
  let submitted_otp := strip (form_get req "otp" "") in
  if negb (nonempty email) || negb (nonempty submitted_otp) then
    ret (render_template "otp" (Some email) [EnterCode])
  else
    let! verdict := verify_otp (env_now e) email submitted_otp in
    let (is_valid, message) := verdict : bool * string in
    if negb is_valid then
      if contains "expired" (lower message) || contains "too many" (lower message)
      then
        modify (upd_sessions (base.delete (sid req))) ;;
        ret (render_template "form" None [VerificationError message])
      else
        ret (render_template "otp" (Some email) [VerificationError message])
    else
      let! fd := gets (fun w => sessions w !! sid req) in
      match fd with
      | None => ret (redirect_index [FormDataExpired])
      | Some fd => process_verified_submission e req fd
      end.

(** [int(30 - time_diff)] for [time_diff] seconds given in microseconds:
    [int] truncates toward zero.  ([total_seconds()] is a float; at
    microsecond resolution and for the spans at hand it is exact enough
    that the comparison with 30 and the truncation come out as on the
    integers.) *)
Definition whole_seconds_left (time_diff : Z) : Z :=
  Z.quot (30 * usec - time_diff) usec.

(** Resend OTP to user's email with cooldown protection *)
Definition resend_otp (e : env) (req : request) : M world response :=
  let email := strip (form_get req "email" "") in
  if negb (nonempty email) then ret (redirect_index [EmailRequired]) else
  let! fd := gets (fun w => sessions w !! sid req) in
  match fd with
  | None => ret (redirect_index [FormDataExpired])
  | Some fd =>
      if negb (String.eqb (app.email fd) email)
      then ret (redirect_index [FormDataExpired]) else
      let current_time := env_now e in
      let! rh := gets helper in
      let! cooling :=
        (if is_available rh then
           let cooldown_key := "otp_resend:" +:+ email in
           let! last_resend := on_redis (get rh current_time cooldown_key None) in
           let! wait :=
             (if truthy last_resend then
                match fromisoformat (default "" last_resend) with
                | None => raise ValueError
                | Some last_time =>
                    let time_diff := current_time - last_time in
                    if time_diff <? 30 * usec
                    then ret (Some (whole_seconds_left time_diff))
                    else ret None
                end
              else ret None) in
           match wait with
           | Some remaining_time => ret (Some remaining_time)
           | None =>
               on_redis (set rh current_time cooldown_key
                           (PStr (isoformat current_time)) (Some 30)) ;;
               ret None
           end
         else
           let! cooldown := gets otp_resend_cooldown in
           let wait :=
             match cooldown !! email with
             | Some last_resend =>
                 let time_diff := current_time - last_resend in
                 if time_diff <? 30 * usec
                 then Some (whole_seconds_left time_diff)
                 else None
             | None => None
             end in
           match wait with
           | Some remaining_time => ret (Some remaining_time)
           | None =>
               modify (upd_otp_resend_cooldown <[email := current_time]>) ;;
               ret None
           end) in
      match cooling with
      | Some remaining_time =>
          ret (render_template "otp" (Some email) [WaitSeconds remaining_time])
      | None =>
          let otp := generate_otp e in
          store_otp current_time email otp ;;
          try_except
            (send_otp_email e email otp ;;
             track_metric current_time "otp_resent" ;;
             ret (render_template "otp" (Some email) [NewOtpSent email]))
            (fun x =>
               track_metric current_time "otp_resend_failed" ;;
               ret (render_template "otp" (Some email) [OtpMailFailed x]))
      end
  end.

(** The rate-limiting block of [index].  The source writes it out twice,
    once per scope (lines 366-375 and 381-390); the two copies differ in
    the key prefix, the ceiling, the window and the message only.
    [None] lets the request through to its handler, [Some r] is the
    early [return] of the throttling page.  The read ([get]) and the
    write ([set] or [incr]) are two round trips: the server sees the
    first at [read] and the second at [now]. *)
Definition rate_limit_block (read now : Z) (rate_key : string)
    (ceiling window : Z) (rejection : flash) : M world (option response) :=
  let! rh := gets helper in
  if is_available rh then
    let! current := on_redis (get rh read rate_key None) in
    match current with
    | None =>
        on_redis (set rh now rate_key (PInt 1) (Some window)) ;;
        ret None
    | Some c =>
        let! over :=
          (if truthy current
           then match int_of_str c with
                | Some n => ret (ceiling <=? n)
                | None => raise ValueError
                end
           else ret false) in
        if over then ret (Some (render_template "form" None [rejection]))
        else on_redis (incr rh now rate_key 1) ;; ret None
    end
  else ret None.

(** The route ["/"] *)
Definition index (e : env) (req : request) : M world response :=
  cleanup_old_data (env_now e) ;;
  match method req with
  | GET_request => ret (render_template "form" None [])
  | POST_request =>
      let step := form_get req "step" "form" in
      let client_ip := client_ip req in
      if String.eqb step "form" then
        let! rejected :=
          rate_limit_block (env_read e) (env_now e)
            ("rate_limit:form:" +:+ client_ip) 10 3600 TooManySubmissions in
        match rejected with
        | Some r => ret r
        | None => handle_form_submission e req
        end
      else if String.eqb step "otp" then
        let! rejected :=
          rate_limit_block (env_read e) (env_now e)
            ("rate_limit:otp:" +:+ client_ip) 15 300 TooManyVerifications in
        match rejected with
        | Some r => ret r
        | None => handle_otp_verification e req
        end
      else ret (redirect_index [InvalidRequest])
  end.

End Handlers.

End app.

(** ** Observations used to state the properties *)

Module view.

Import Redis redis_helper app.

(** What a helper method owes its caller: a returned value always, and the
    [signal] (the supplied default, [False] or [None]) when the helper is
    unusable or the client call raised. *)
Definition degrades {C A B : Type} (self : RedisHelper)
    (call : M C A) (method : M C B) (signal : B) (c : C) : Prop :=
  returned (method c).2 = true
  /\ if unusable self then method c = (c, Returns signal)
     else match call c with
          | (c', Raises _) => method c = (c', Returns signal)
          | (_, Returns _) => True
          end.



(** The live OTP record for [email], as the active backend holds it: the
    stored code and the attempts counted so far. *)
Definition otp_record (now : Z) (w : world) (email : string) : option (string * Z) :=
  if is_available (helper w) then
    if up (redis w) then
      match fetch now (db (redis w)) ("otp:" +:+ email) with
      | Some (Entry (RHash h) _) =>
          match h !! "otp", h !! "attempts" with
          | Some code, Some a =>
              match int_of_str a with
              | Some n => Some (code, n)
              | None => None
              end
          | _, _ => None
          end
      | _ => None
      end
    else None
  else
    match otp_storage w !! email with
    | Some d => if expires_at d <? now then None else Some (otp d, attempts d)
    | None => None
    end.

(** Whether the active backend holds anything at all for [email]. *)
Definition has_record (now : Z) (w : world) (email : string) : bool :=
  if is_available (helper w) then
    match fetch now (db (redis w)) ("otp:" +:+ email) with
    | Some _ => true
    | None => false
    end
  else
    match otp_storage w !! email with
    | Some _ => true
    | None => false
    end.

(** The active backend can take an OTP for [email]: in Redis mode the
    server answers and the key is not held by a plain string. *)
Definition ready (now : Z) (w : world) (email : string) : bool :=
  if is_available (helper w) then
    up (redis w)
    && match fetch now (db (redis w)) ("otp:" +:+ email) with
       | Some (Entry (RString _) _) => false
       | _ => true
       end
  else true.


(** The instant of the last resend for [email], as the active backend
    remembers it at [now]. *)
Definition last_resend `{Datetime} (now : Z) (w : world) (email : string)
  : option Z :=
  if is_available (helper w) then
    match fetch now (db (redis w)) ("otp_resend:" +:+ email) with
    | Some (Entry (RString v) _) => fromisoformat v
    | _ => None
    end
  else otp_resend_cooldown w !! email.





(** The request asks to resend the code of [email], and the session holds
    the form that was submitted for [email]. *)
Definition can_resend (w : world) (req : request) (email : string) : bool :=
  String.eqb (strip (form_get req "email" "")) email
  && nonempty email
  && match sessions w !! sid req with
     | Some fd => String.eqb (app.email fd) email
     | None => false
     end.



(** The counter of the rate-limit window stored under [rate_key]. *)
Definition rate_count (now : Z) (w : world) (rate_key : string) : option Z :=
  match fetch now (db (redis w)) rate_key with
  | Some (Entry (RString v) _) => int_of_str v
  | _ => None
  end.

Definition is_throttle (f : flash) : bool :=
  match f with
  | TooManySubmissions | TooManyVerifications => true
  | _ => false
  end.

(** The response is the throttling page. *)
Definition throttled (r : response) : bool := existsb is_throttle (flashes_of r).

(** *** Sequences of calls *)









(** Requests served one after the other by the route ["/"]. *)
Fixpoint serve `{Datetime} (reqs : list (env * request)) : M world (list response) :=
  match reqs with
  | [] => ret []
  | (e, req) :: rest =>
      let! r := index e req in
      let! rs := serve rest in
      ret (r :: rs)
  end.

(** The route ["/"] with its two rate-limiting blocks taken out: every
    request goes straight to its handler. *)
Definition index_unlimited `{Datetime} (e : env) (req : request) : M world response :=
  cleanup_old_data (env_now e) ;;
  match method req with
  | GET_request => ret (render_template "form" None [])
  | POST_request =>
      let step := form_get req "step" "form" in
      if String.eqb step "form" then handle_form_submission e req
      else if String.eqb step "otp" then handle_otp_verification e req
      else ret (redirect_index [InvalidRequest])
  end.

Fixpoint serve_unlimited `{Datetime} (reqs : list (env * request))
  : M world (list response) :=
  match reqs with
  | [] => ret []
  | (e, req) :: rest =>
      let! r := index_unlimited e req in
      let! rs := serve_unlimited rest in
      ret (r :: rs)
  end.

Definition is_form_post (ip : string) (req : request) : bool :=
  match method req with
  | POST_request =>
      String.eqb (form_get req "step" "form") "form" && String.eqb (client_ip req) ip
  | GET_request => false
  end.

End view.

(** ** Relations and triples used in the proofs *)

Module logic.

Import Redis redis_helper app.

(** [away k s s']: going from [s] to [s'] kept the connection state and the
    entry under [k]. *)
Definition away (k : string) (s s' : server) : Prop :=
  up s' = up s /\ db s' !! k = db s !! k.

(** [preserves R m]: running [m] relates the state before to the state
    after, whether [m] returns or raises. *)
Definition preserves {A : Type} (R : relation world) (m : M world A) : Prop :=
  forall w : world, R w (m w).1.

(** A projection of the world is unchanged. *)
Definition kept {T : Type} (f : world -> T) : relation world :=
  fun w w' => f w' = f w.

(** The connection state and the entry under [k] are unchanged. *)
Definition key_kept (k : string) : relation world :=
  fun w w' => away k (redis w) (redis w').

(** Going from [w] to [w'] changed nothing but metrics. *)
Definition only_metrics : relation world :=
  fun w w' =>
    helper w' = helper w /\ otp_storage w' = otp_storage w
    /\ otp_resend_cooldown w' = otp_resend_cooldown w
    /\ sessions w' = sessions w
    /\ up (redis w') = up (redis w)
    /\ forall k, String.prefix "metrics:" k = false ->
         db (redis w') !! k = db (redis w) !! k.

(** [promises P m]: [m] returns -- it never raises -- and what it returns
    satisfies [P]. *)
Definition promises {A : Type} (P : A -> Prop) (m : M world A) : Prop :=
  forall w : world,
    match (m w).2 with
    | Returns a => P a
    | Raises _ => False
    end.

(** [grants P m]: whenever [m] returns, what it returns satisfies [P]. *)
Definition grants {A : Type} (P : A -> Prop) (m : M world A) : Prop :=
  forall w : world,
    match (m w).2 with
    | Returns a => P a
    | Raises _ => True
    end.

Definition anything {A : Type} : A -> Prop := fun _ => True.

(** The window of [rate_key] is open: the counter stands at [c] and the key
    expires at [closes]. *)
Definition window (w : world) (rate_key : string) (c closes : Z) : Prop :=
  is_available (helper w) = true /\ up (redis w) = true
  /\ db (redis w) !! rate_key
     = Some (Entry (RString (str_of_int c)) (Some closes)).

(** The counter of [rate_key] stands at [c], and the key expires at [ex]
    or, when [ex] is [None], never. *)
Definition counting (w : world) (rate_key : string) (c : Z) (ex : option Z)
  : Prop :=
  is_available (helper w) = true /\ up (redis w) = true
  /\ db (redis w) !! rate_key = Some (Entry (RString (str_of_int c)) ex).

(** The instant [t] is not past the expiry [ex]. *)
Definition before (ex : option Z) (t : Z) : Prop :=
  match ex with
  | Some closes => t <= closes
  | None => True
  end.

End logic.

(** ** Sample data for evaluating the model *)

Module sample.

Import Redis redis_helper app.

(** A stand-in calendar: an instant is written as its count of
    microseconds, hours and days as their ordinal numbers. *)
#[export] Instance numeric_datetime : Datetime := {|
  strftime_hour t := str_of_int (t / (3600 * usec));
  strftime_day t := str_of_int (t / (86400 * usec));
  isoformat t := str_of_int t;
  fromisoformat s := int_of_str s
|}.

Definition url : string := "redis://localhost:6379/0".

Definition server_up : server := {| db := ∅; up := true |}.
Definition server_down : server := {| db := ∅; up := false |}.

(** The helper as [__init__] leaves it when the probe succeeds. *)
Definition helper_redis : RedisHelper :=
  {| redis_url := url; redis_client := Some (from_url url);
     redis_available := true |}.

(** The helper as [__init__] leaves it when the probe fails. *)
Definition helper_fallback : RedisHelper :=
  {| redis_url := url; redis_client := Some (from_url url);
     redis_available := false |}.

Definition fresh (h : RedisHelper) (s : server) : world :=
  {| helper := h; redis := s; otp_storage := ∅;
     otp_resend_cooldown := ∅; sessions := ∅ |}.

Definition world_redis : world := fresh helper_redis server_up.
Definition world_fallback : world := fresh helper_fallback server_up.

Definition sec (n : Z) : Z := n * usec.

(** Issue a code, submit a wrong code three times, then the right code
    twice. *)
Definition three_wrong_then_right : M world (list (bool * string)) :=
  store_otp 0 "a@x.com" "123456" ;;
  let! r1 := verify_otp (sec 1) "a@x.com" "000000" in
  let! r2 := verify_otp (sec 2) "a@x.com" "000000" in
  let! r3 := verify_otp (sec 3) "a@x.com" "000000" in
  let! r4 := verify_otp (sec 4) "a@x.com" "123456" in
  let! r5 := verify_otp (sec 5) "a@x.com" "123456" in
  ret [r1; r2; r3; r4; r5].

(** Issue a code and submit a wrong code twice. *)
Definition two_wrong : M world unit :=
  store_otp 0 "a@x.com" "123456" ;;
  verify_otp (sec 1) "a@x.com" "000000" ;;
  verify_otp (sec 2) "a@x.com" "000000" ;;
  ret tt.

Definition the_env (now : Z) (code : string) : env :=
  {| env_read := now; env_now := now; env_random_otp := code;
     env_phone_ok := fun _ => true;
     env_smtp := None; env_submission_id := "000001";
     env_local_file_ok := true |}.

(** A request whose read of the rate-limit counter reaches Redis at
    [read] and whose write at [now]. *)
Definition the_env_split (read now : Z) (code : string) : env :=
  {| env_read := read; env_now := now; env_random_otp := code;
     env_phone_ok := fun _ => true;
     env_smtp := None; env_submission_id := "000001";
     env_local_file_ok := true |}.

Definition form_post (ip : string) : request :=
  {| method := POST_request;
     form := list_to_map [("step", "form"); ("first_name", "Ada");
                          ("last_name", "Lovelace"); ("email", "a@x.com");
                          ("comments", "hello")];
     client_ip := ip; sid := "cookie" |}.

Definition resend_post : request :=
  {| method := POST_request;
     form := list_to_map [("email", "a@x.com")];
     client_ip := "10.0.0.1"; sid := "cookie" |}.

Definition otp_post (ip code : string) : request :=
  {| method := POST_request;
     form := list_to_map [("step", "otp"); ("email", "a@x.com"); ("otp", code)];
     client_ip := ip; sid := "cookie" |}.

(** Eleven more form posts of the same client, a minute after the first. *)
Definition burst : list (env * request) :=
  replicate 11 (the_env (sec 60) "111111", form_post "10.0.0.1").

(** A form post followed by twenty attempts to verify, within a minute. *)
Definition hammering : list (env * request) :=
  (the_env 0 "111111", form_post "10.0.0.1")
  :: replicate 20 (the_env (sec 60) "111111", otp_post "10.0.0.1" "000000").

(** The state after the first form post of the client, made at 0: its
    window is open until 3600 s. *)
Definition after_first_post (w : world) : world :=
  (index (the_env 0 "111111") (form_post "10.0.0.1") w).1.

(** The second form post: the counter is read in the last instant of the
    window and written one microsecond later. *)
Definition straddling : env := the_env_split (sec 3600) (sec 3600 + 1) "111111".

(** Ten more form posts of the client, the first nine within the next
    minutes and the tenth a year later. *)
Definition afterwards : list (env * request) :=
  (replicate 9 (the_env (sec 3700) "111111", form_post "10.0.0.1")
   ++ [(the_env (sec 31536000) "111111", form_post "10.0.0.1")])%list.

(** The form is submitted for a@x.com at 0 and the code 111111 is mailed. *)
Definition after_form (w : world) : world :=
  (handle_form_submission (the_env 0 "111111") (form_post "10.0.0.1") w).1.

(** One second later the client asks for another code and gets 222222. *)
Definition after_resend (w : world) : world :=
  (resend_otp (the_env (sec 1) "222222") resend_post (after_form w)).1.

End sample.

(** ** Further observations, used to state properties of the handlers *)

Module outcomes.

Import Redis redis_helper app view.


(** The number a counter key stands for at [now]: an absent key counts as
    0, a key that holds no numeral has no count. *)
Definition counter (now : Z) (s : server) (key : string) : option Z :=
  match fetch now (db s) key with
  | None => Some 0
  | Some (Entry (RString v) _) => int_of_str v
  | Some (Entry (RHash _) _) => None
  end.

(** *** The two rate-limited scopes of the route ["/"] *)

Inductive scope : Type := FormScope | OtpScope.

(** The value of the form field [step] that selects the scope. *)
Definition scope_step (sc : scope) : string :=
  match sc with FormScope => "form" | OtpScope => "otp" end.

Definition scope_key (sc : scope) (ip : string) : string :=
  match sc with
  | FormScope => "rate_limit:form:" +:+ ip
  | OtpScope => "rate_limit:otp:" +:+ ip
  end.

Definition scope_ceiling (sc : scope) : Z :=
  match sc with FormScope => 10 | OtpScope => 15 end.

(** The length of the window, in seconds. *)
Definition scope_window (sc : scope) : Z :=
  match sc with FormScope => 3600 | OtpScope => 300 end.

Definition scope_rejection (sc : scope) : flash :=
  match sc with
  | FormScope => TooManySubmissions
  | OtpScope => TooManyVerifications
  end.

Definition scope_handler `{Datetime} (sc : scope) : env -> request -> M world response :=
  match sc with
  | FormScope => handle_form_submission
  | OtpScope => handle_otp_verification
  end.

(** The request is a post of scope [sc] from the client [ip]. *)
Definition is_post (sc : scope) (ip : string) (req : request) : bool :=
  match method req with
  | POST_request =>
      String.eqb (form_get req "step" "form") (scope_step sc)
      && String.eqb (client_ip req) ip
  | GET_request => false
  end.

(** Requests served one after the other by the route ["/"].  When a
    handler raises, Flask answers that request with an error page and the
    next request is served on the state the handler left. *)
Fixpoint serve_all `{Datetime} (reqs : list (env * request)) (w : world)
  : list (outcome response) :=
  match reqs with
  | [] => []
  | (e, req) :: rest =>
      let x := index e req w in
      x.2 :: serve_all rest x.1
  end.

(** The request was answered with the throttling page. *)
Definition turned_away (o : outcome response) : bool :=
  match o with
  | Returns r => view.throttled r
  | Raises _ => false
  end.

(** Whether each post of [sc] from [ip] was turned away, in order. *)
Fixpoint verdicts (sc : scope) (ip : string) (reqs : list (env * request))
    (outs : list (outcome response)) : list bool :=
  match reqs, outs with
  | (e, req) :: reqs', o :: outs' =>
      if is_post sc ip req
      then turned_away o :: verdicts sc ip reqs' outs'
      else verdicts sc ip reqs' outs'
  | _, _ => []
  end.

Fixpoint posts (sc : scope) (ip : string) (reqs : list (env * request)) : nat :=
  match reqs with
  | [] => 0
  | (e, req) :: rest =>
      if is_post sc ip req then S (posts sc ip rest) else posts sc ip rest
  end.

(** The instant at which the first post of [sc] from [ip] writes the
    counter. *)
Fixpoint opening (sc : scope) (ip : string) (reqs : list (env * request))
  : option Z :=
  match reqs with
  | [] => None
  | (e, req) :: rest =>
      if is_post sc ip req then Some (env_now e) else opening sc ip rest
  end.

(** No post of [sc] from [ip] reads or writes the counter after [closes]. *)
Definition all_by (sc : scope) (ip : string) (closes : Z)
    (reqs : list (env * request)) : Prop :=
  Forall (fun er : env * request =>
            is_post sc ip er.2 = true ->
            env_read er.1 <= closes /\ env_now er.1 <= closes) reqs.

(** The posts of [sc] from [ip] fall into the window that the first of
    them opens. *)
Definition in_one_window (sc : scope) (ip : string)
    (reqs : list (env * request)) : Prop :=
  match opening sc ip reqs with
  | Some t1 => all_by sc ip (t1 + scope_window sc * usec) reqs
  | None => True
  end.

End outcomes.

(** * Properties *)

Import Redis redis_helper app view logic.

(** ** Numerals *)

Lemma int_of_str_of_int (n : Z) : int_of_str (str_of_int n) = Some n.
Proof.
  unfold int_of_str, str_of_int.
  rewrite NilZero.isi.
  - simpl. by rewrite DecimalZ.of_to.
  - destruct n; simpl; try discriminate.
    intros [= Hp]. by apply Unsigned.to_uint_nonnil in Hp.
  - destruct n; simpl; try discriminate.
    intros [= Hp]. by apply Unsigned.to_uint_nonnil in Hp.
Qed.

Lemma str_of_int_nonempty (n : Z) : truthy (Some (str_of_int n)) = true.
Proof.
  destruct (str_of_int n) eqn:E; [|done].
  pose proof (int_of_str_of_int n) as Hn. by rewrite E in Hn.
Qed.

(** ** The helper never raises *)

Section HelperNeverRaises.
Context {C : Type} `{RedisClient C}.
Variables (self : RedisHelper) (now : Z).

Lemma int_str_returns (n : Z) (c : C) : int_str n c = (c, Returns n).
Proof. unfold int_str. by rewrite int_of_str_of_int. Qed.

Ltac run_method call :=
  unfold degrades, get, set, hget, hset, expire, delete, exists_, incr,
    hincrby, try_except, bind, ret;
  destruct (unusable self); simpl; [done|];
  destruct call as [c' [r|e]]; simpl; [|done];
  try (destruct r; simpl; rewrite ?int_str_returns); done.

Lemma get_degrades key d c :
  degrades self (client_get now key) (get self now key d) d c.
Proof. run_method (client_get now key c). Qed.

Lemma set_degrades key v ex c :
  degrades self (client_set now key v ex) (set self now key v ex) false c.
Proof. run_method (client_set now key v ex c). Qed.

Lemma hget_degrades name key d c :
  degrades self (client_hget now name key) (hget self now name key d) d c.
Proof. run_method (client_hget now name key c). Qed.

Lemma hset_degrades name mapping c :
  degrades self (client_hset now name mapping) (hset self now name mapping) false c.
Proof. run_method (client_hset now name mapping c). Qed.

Lemma expire_degrades name time c :
  degrades self (client_expire now name time) (expire self now name time) false c.
Proof. run_method (client_expire now name time c). Qed.

Lemma delete_degrades names c :
  degrades self (client_delete now names) (delete self now names) false c.
Proof. run_method (client_delete now names c). Qed.

Lemma exists_degrades name c :
  degrades self (client_exists now name) (exists_ self now name) false c.
Proof. run_method (client_exists now name c). Qed.

Lemma incr_degrades name amount c :
  degrades self (client_incr now name amount) (incr self now name amount) None c.
Proof. run_method (client_incr now name amount c). Qed.

Lemma hincrby_degrades name key amount c :
  degrades self (client_hincrby now name key amount)
    (hincrby self now name key amount) None c.
Proof. run_method (client_hincrby now name key amount c). Qed.

End HelperNeverRaises.

(** C8.  No method of the Ephemeral Store lets an exception escape: whatever
    the client behind the helper does -- answer or raise any exception, at
    any call -- each of [get], [set], [hget], [hset], [expire], [delete],
    [exists], [incr] and [hincrby] returns, and it returns its unavailable
    signal (the supplied default, [False] or [None]) when the helper is
    unusable or the client call raised. *)
Theorem store_methods_never_raise {C : Type} `{RedisClient C}
    (self : RedisHelper) (now : Z) (c : C)
    (key name field : string) (default : option string) (value : strint)
    (ex : option Z) (mapping : list (string * string)) (names : list string)
    (time amount : Z) :
  degrades self (client_get now key) (get self now key default) default c
  /\ degrades self (client_set now key value ex) (set self now key value ex) false c
  /\ degrades self (client_hget now name field) (hget self now name field default) default c
  /\ degrades self (client_hset now name mapping) (hset self now name mapping) false c
  /\ degrades self (client_expire now name time) (expire self now name time) false c
  /\ degrades self (client_delete now names) (delete self now names) false c
  /\ degrades self (client_exists now name) (exists_ self now name) false c
  /\ degrades self (client_incr now name amount) (incr self now name amount) None c
  /\ degrades self (client_hincrby now name field amount)
       (hincrby self now name field amount) None c.
Proof.
  repeat split;
    first [ apply get_degrades | apply set_degrades | apply hget_degrades
          | apply hset_degrades | apply expire_degrades | apply delete_degrades
          | apply exists_degrades | apply incr_degrades | apply hincrby_degrades ].
Qed.

(** ** The server behind the helper *)

#[local] Instance away_preorder (k : string) : PreOrder (away k).
Proof.
  split.
  - by intros s.
  - intros s1 s2 s3 [Hu1 Hd1] [Hu2 Hd2]. split; congruence.
Qed.

Lemma usable (h : RedisHelper) : is_available h = true -> unusable h = false.
Proof.
  unfold unusable, is_available. intros [-> ->]%andb_prop. done.
Qed.

Lemma del_keys_away (now : Z) (names : list string) (k : string)
    (d : gmap string entry) :
  k ∉ names -> (del_keys now names d).1 !! k = d !! k.
Proof.
  revert d. induction names as [|k' names IH]; intros d Hk; [done|].
  apply not_elem_of_cons in Hk as [Hne Hk]. simpl.
  destruct (fetch now d k').
  - specialize (IH (base.delete k' d) Hk).
    destruct (del_keys now names (base.delete k' d)) as [d' n]. simpl in *.
    by rewrite IH, lookup_delete_ne.
  - by rewrite IH, lookup_delete_ne.
Qed.

#[local] Arguments del_keys : simpl never.

Ltac helper_cases h :=
  unfold get, set, hget, hset, expire, delete, exists_, incr, hincrby,
    try_except, bind, ret, raise; simpl;
  unfold GET, SET, HGET, HSET, EXPIRE, DEL, EXISTS, INCRBY, HINCRBY, command,
    bind, ret, raise;
  destruct (unusable h); simpl; try done.

Ltac split_cases :=
  repeat (simpl;
    match goal with
    | |- context [match ?x with _ => _ end] =>
        lazymatch x with
        | context [match _ with _ => _ end] => fail
        | _ => destruct x eqn:?
        end
    end); simpl.

Lemma metrics_prefix (rest : string) :
  String.prefix "metrics:" ("metrics:" +:+ rest) = true.
Proof. simpl. by destruct rest. Qed.

Section Frames.
Variables (h : RedisHelper) (now : Z) (k : string).

Lemma get_state key d s : (get h now key d s).1 = s.
Proof. helper_cases h. by split_cases. Qed.

Lemma hget_state name key d s : (hget h now name key d s).1 = s.
Proof. helper_cases h. by split_cases. Qed.

Lemma exists_state name s : (exists_ h now name s).1 = s.
Proof. helper_cases h. by split_cases. Qed.

Ltac frame := split_cases; split; simpl; rewrite ?lookup_insert_ne, ?lookup_delete_ne by done; done.

Lemma set_away key v ex s : k <> key -> away k s (set h now key v ex s).1.
Proof. intros. helper_cases h. frame. Qed.

Lemma hset_away name mapping s : k <> name -> away k s (hset h now name mapping s).1.
Proof. intros. helper_cases h. destruct mapping; simpl; [done|]. frame. Qed.

Lemma expire_away name time s : k <> name -> away k s (expire h now name time s).1.
Proof. intros. helper_cases h. frame. Qed.

Lemma incr_away name amount s : k <> name -> away k s (incr h now name amount s).1.
Proof. intros. helper_cases h. unfold int_str. rewrite ?int_of_str_of_int. frame. Qed.

Lemma hincrby_away name key amount s :
  k <> name -> away k s (hincrby h now name key amount s).1.
Proof. intros. helper_cases h. unfold int_str. rewrite ?int_of_str_of_int. frame. Qed.

Lemma delete_away names s : k ∉ names -> away k s (delete h now names s).1.
Proof.
  intros Hk. helper_cases h. destruct names as [|k' names]; simpl.
  - by destruct (up s).
  - destruct (up s) eqn:Hup; simpl; [|done].
    pose proof (del_keys_away now (k' :: names) k (db s) Hk) as Hd.
    destruct (del_keys now (k' :: names) (db s)) as [d' n]. simpl in *.
    done.
Qed.

Lemma track_metric_away `{Datetime} name v s :
  String.prefix "metrics:" k = false ->
  away k s (redis_helper.track_metric h now name v s).1.
Proof.
  intros Hk. unfold redis_helper.track_metric.
  set (hk := "metrics:" +:+ name +:+ ":" +:+ strftime_hour now).
  set (dk := "metrics:" +:+ name +:+ ":" +:+ strftime_day now).
  assert (k <> hk) as Hhk
    by (intros E; rewrite E in Hk; unfold hk in Hk; by rewrite metrics_prefix in Hk).
  assert (k <> dk) as Hdk
    by (intros E; rewrite E in Hk; unfold dk in Hk; by rewrite metrics_prefix in Hk).
  unfold bind.
  pose proof (incr_away hk v s Hhk) as H1.
  destruct (incr h now hk v s) as [s1 [r1|e1]]; simpl in *; [|done].
  pose proof (expire_away hk (86400 * 7) s1 Hhk) as H2.
  destruct (expire h now hk (86400 * 7) s1) as [s2 [r2|e2]]; simpl in *;
    [|by etrans].
  pose proof (incr_away dk v s2 Hdk) as H3.
  destruct (incr h now dk v s2) as [s3 [r3|e3]]; simpl in *;
    [|by do 2 (etrans; [eassumption|])].
  pose proof (expire_away dk (86400 * 30) s3 Hdk) as H4.
  destruct (expire h now dk (86400 * 30) s3) as [s4 [r4|e4]]; simpl in *;
    by do 3 (etrans; [eassumption|]).
Qed.

End Frames.

(** What a working server answers through a usable helper. *)
Section ServerAnswers.
Variables (h : RedisHelper) (now : Z) (s : server).
Hypothesis (Hh : is_available h = true) (Hup : up s = true).

Ltac answer :=
  helper_cases h; [|by rewrite (usable h Hh) in *]; rewrite Hup; simpl.

Lemma get_answer key d :
  get h now key d s
  = (s, Returns match fetch now (db s) key with
                | Some (Entry (RString v) _) => Some v
                | _ => d
                end).
Proof using Hh Hup.
  generalize (usable h Hh). helper_cases h. intros _. rewrite Hup.
  by split_cases.
Qed.

Lemma set_answer key v n :
  0 < n ->
  set h now key v (Some n) s
  = (with_db <[key := Entry (RString (encode v)) (Some (now + n * usec))]> s,
     Returns true).
Proof using Hh Hup.
  intros Hn. generalize (usable h Hh). helper_cases h. intros _. rewrite Hup.
  destruct (n <=? 0) eqn:E; [lia|done].
Qed.

Lemma exists_answer name :
  exists_ h now name s
  = (s, Returns match fetch now (db s) name with
                | Some _ => true
                | None => false
                end).
Proof using Hh Hup.
  generalize (usable h Hh). helper_cases h. intros _. rewrite Hup.
  by destruct (fetch now (db s) name).
Qed.

Lemma hget_answer name key d :
  hget h now name key d s
  = (s, Returns match fetch now (db s) name with
                | Some (Entry (RHash hh) _) =>
                    match hh !! key with Some v => Some v | None => d end
                | _ => d
                end).
Proof using Hh Hup.
  generalize (usable h Hh). helper_cases h. intros _. rewrite Hup.
  by split_cases.
Qed.

Lemma hset_answer name item items :
  match fetch now (db s) name with
  | Some (Entry (RString _) _) => False
  | _ => True
  end ->
  exists b : bool,
    hset h now name (item :: items) s
    = (with_db <[name := match fetch now (db s) name with
                         | Some (Entry (RHash h0) ex) =>
                             Entry (RHash (hash_update (item :: items) h0)) ex
                         | _ => Entry (RHash (hash_update (item :: items) ∅)) None
                         end]> s,
       Returns b).
Proof using Hh Hup.
  generalize (usable h Hh). helper_cases h. intros _. rewrite Hup.
  destruct (fetch now (db s) name) as [[[v|h0] ex]|]; simpl; [done|..];
    intros _; eauto.
Qed.

Lemma expire_answer name time v ex :
  fetch now (db s) name = Some (Entry v ex) -> 0 < time ->
  expire h now name time s
  = (with_db <[name := Entry v (Some (now + time * usec))]> s, Returns true).
Proof using Hh Hup.
  intros Hf Ht. generalize (usable h Hh). helper_cases h. intros _.
  rewrite Hup, Hf. simpl. destruct (time <=? 0) eqn:E; [lia|done].
Qed.

Lemma delete_answer name :
  exists b : bool,
    delete h now [name] s = (with_db (base.delete name) s, Returns b).
Proof using Hh Hup.
  generalize (usable h Hh). helper_cases h. intros _. rewrite Hup.
  unfold del_keys, with_db. rewrite Hup.
  destruct (fetch now (db s) name); simpl; eauto.
Qed.

Lemma incr_answer name v ex n :
  fetch now (db s) name = Some (Entry (RString v) ex) ->
  int_of_str v = Some n -> 0 <= n < 1000 ->
  incr h now name 1 s
  = (with_db <[name := Entry (RString (str_of_int (n + 1))) ex]> s,
     Returns (Some (n + 1))).
Proof using Hh Hup.
  intros Hf Hv Hn. generalize (usable h Hh). helper_cases h. intros _.
  rewrite Hup, Hf. simpl. rewrite Hv.
  assert (in_int64 n && in_int64 (n + 1) = true) as ->.
  { unfold in_int64, int64_min, int64_max. lia. }
  simpl. unfold int_str. by rewrite int_of_str_of_int.
Qed.

Lemma hincrby_answer name key hh ex v n :
  fetch now (db s) name = Some (Entry (RHash hh) ex) ->
  hh !! key = Some v -> int_of_str v = Some n -> 0 <= n < 1000 ->
  hincrby h now name key 1 s
  = (with_db <[name := Entry (RHash (<[key := str_of_int (n + 1)]> hh)) ex]> s,
     Returns (Some (n + 1))).
Proof using Hh Hup.
  intros Hf Hk Hv Hn. generalize (usable h Hh). helper_cases h. intros _.
  rewrite Hup, Hf. simpl. unfold hincr_field. rewrite Hk, Hv.
  assert (in_int64 n && in_int64 (n + 1) = true) as ->.
  { unfold in_int64, int64_min, int64_max. lia. }
  simpl. unfold int_str. by rewrite int_of_str_of_int.
Qed.

Lemma track_metric_answer `{Datetime} name v :
  exists s' : server,
    redis_helper.track_metric h now name v s = (s', Returns tt)
    /\ forall k, String.prefix "metrics:" k = false -> away k s s'.
Proof using Type.
  exists (redis_helper.track_metric h now name v s).1. split.
  - unfold redis_helper.track_metric, bind, ret.
    repeat match goal with
    | |- context [incr h now ?k ?a ?x] =>
        let Hr := fresh in
        destruct (incr_degrades h now k a x) as [Hr _];
        destruct (incr h now k a x) as [? [?|?]]; [clear Hr|done]; simpl
    | |- context [expire h now ?k ?a ?x] =>
        let Hr := fresh in
        destruct (expire_degrades h now k a x) as [Hr _];
        destruct (expire h now k a x) as [? [?|?]]; [clear Hr|done]; simpl
    end.
    done.
  - intros k Hk. by apply track_metric_away.
Qed.

End ServerAnswers.

(** ** What the handlers leave alone *)

#[local] Instance kept_preorder {T : Type} (f : world -> T) : PreOrder (kept f).
Proof. split; [by intros w|]. intros w1 w2 w3. unfold kept. congruence. Qed.

#[local] Instance key_kept_preorder (k : string) : PreOrder (key_kept k).
Proof.
  split; [by intros w|]. intros w1 w2 w3 H12 H23. unfold key_kept in *.
  by etrans.
Qed.

Section Preserves.
Context (R : relation world) `{!PreOrder R}.

Lemma preserves_ret {A : Type} (a : A) : preserves R (ret a).
Proof. by intros w. Qed.

Lemma preserves_raise {A : Type} (e : exn) : preserves R (raise (A := A) e).
Proof. by intros w. Qed.

Lemma preserves_gets {A : Type} (f : world -> A) : preserves R (gets f).
Proof. by intros w. Qed.

Lemma preserves_bind {A B : Type} (m : M world A) (k : A -> M world B) :
  preserves R m -> (forall a, preserves R (k a)) -> preserves R (bind m k).
Proof.
  intros Hm Hk w. unfold bind. specialize (Hm w).
  destruct (m w) as [w1 [a|e]]; simpl in *; [|done].
  etrans; [exact Hm|apply Hk].
Qed.

Lemma preserves_try {A : Type} (m : M world A) (hd : exn -> M world A) :
  preserves R m -> (forall e, preserves R (hd e)) -> preserves R (try_except m hd).
Proof.
  intros Hm Hk w. unfold try_except. specialize (Hm w).
  destruct (m w) as [w1 [a|e]]; simpl in *; [done|].
  etrans; [exact Hm|apply Hk].
Qed.

End Preserves.

Lemma kept_on_redis {T A : Type} (f : world -> T) (m : M server A) :
  (forall r w, f (set_redis r w) = f w) -> preserves (kept f) (on_redis m).
Proof.
  intros Hf w. unfold kept, on_redis, zoom. destruct (m (redis w)). apply Hf.
Qed.

Lemma kept_modify {T : Type} (f : world -> T) (g : world -> world) :
  (forall w, f (g w) = f w) -> preserves (kept f) (modify g).
Proof. intros Hf w. apply Hf. Qed.

Lemma key_kept_on_redis {A : Type} (k : string) (m : M server A) :
  (forall s, away k s (m s).1) -> preserves (key_kept k) (on_redis m).
Proof.
  intros Hm w. unfold key_kept, on_redis, zoom. specialize (Hm (redis w)).
  by destruct (m (redis w)).
Qed.

Lemma key_kept_modify (k : string) (g : world -> world) :
  (forall w, redis (g w) = redis w) -> preserves (key_kept k) (modify g).
Proof. intros Hg w. unfold key_kept, modify. simpl. by rewrite Hg. Qed.

Lemma same_state_away {A : Type} (k : string) (m : M server A) :
  (forall s, (m s).1 = s) -> forall s, away k s (m s).1.
Proof. intros Hm s. by rewrite Hm. Qed.

(** Walk through a handler, leaving the side conditions on keys. *)
Ltac preserve :=
  repeat first
    [ apply preserves_ret; typeclasses eauto
    | apply preserves_raise; typeclasses eauto
    | apply preserves_gets; typeclasses eauto
    | apply preserves_bind; [typeclasses eauto | | intros ?]
    | apply preserves_try; [typeclasses eauto | | intros ?]
    | apply kept_on_redis; done
    | apply kept_modify; done
    | apply key_kept_modify; done
    | apply key_kept_on_redis; intros ?
    | match goal with
      | |- preserves _ (if ?b then _ else _) => destruct b
      | |- preserves _ (match ?x with _ => _ end) => destruct x
      | |- preserves _ (let (_, _) := ?x in _) => destruct x
      end
    | progress cbv zeta ].

(** Keys of the three families never coincide. *)
Ltac key_facts :=
  repeat match goal with
  | H : _ <> _ |- _ => revert H
  end;
  intros;
  first
    [ done
    | by apply same_state_away; intros; first
        [ apply get_state | apply hget_state | apply exists_state ]
    | by apply track_metric_away
    | apply set_away; congruence
    | apply hset_away; congruence
    | apply expire_away; congruence
    | apply incr_away; congruence
    | apply hincrby_away; congruence
    | apply delete_away; rewrite list_elem_of_singleton; congruence ].

Section HandlersPreserve.
Context `{Datetime}.

Lemma track_metric_keeps_key k now name :
  String.prefix "metrics:" k = false ->
  preserves (key_kept k) (track_metric now name).
Proof. intros Hk. unfold track_metric. preserve. by apply track_metric_away. Qed.

Lemma track_metric_keeps {T : Type} (f : world -> T) now name :
  (forall r w, f (set_redis r w) = f w) ->
  preserves (kept f) (track_metric now name).
Proof. intros Hf. unfold track_metric. preserve. Qed.

(** No OTP operation assigns to the helper. *)
Lemma store_otp_keeps_helper now email code :
  preserves (kept helper) (store_otp now email code).
Proof. unfold store_otp. preserve. Qed.

Lemma verify_otp_keeps_helper now email code :
  preserves (kept helper) (verify_otp now email code).
Proof. unfold verify_otp. preserve. Qed.

Lemma cleanup_keeps_helper now : preserves (kept helper) (cleanup_old_data now).
Proof. unfold cleanup_old_data. preserve. Qed.

Lemma resend_otp_keeps_helper e req : preserves (kept helper) (resend_otp e req).
Proof.
  unfold resend_otp, send_otp_email, send_email.
  preserve; first [ apply store_otp_keeps_helper | by apply track_metric_keeps ].
Qed.

Lemma index_keeps_helper e req : preserves (kept helper) (index e req).
Proof.
  unfold index, rate_limit_block, handle_form_submission,
    handle_otp_verification, process_verified_submission, send_otp_email,
    send_email.
  preserve;
    first [ apply store_otp_keeps_helper | by apply track_metric_keeps
          | apply cleanup_keeps_helper | apply verify_otp_keeps_helper ].
Qed.

End HandlersPreserve.

(** ** Evaluating the OTP operations *)

#[local] Arguments String.append : simpl never.

Lemma bind_gets {A B : Type} (f : world -> A) (k : A -> M world B) (w : world) :
  bind (gets f) k w = k (f w) w.
Proof. reflexivity. Qed.

Lemma bind_modify {B : Type} (g : world -> world) (k : unit -> M world B) (w : world) :
  bind (modify g) k w = k tt (g w).
Proof. reflexivity. Qed.

Lemma bind_on_redis {A B : Type} (m : M server A) (k : A -> M world B)
    (w : world) (s' : server) (a : A) :
  m (redis w) = (s', Returns a) ->
  bind (on_redis m) k w = k a (set_redis s' w).
Proof. intros Hm. unfold bind, on_redis, zoom. by rewrite Hm. Qed.

Lemma on_redis_returns {A : Type} (m : M server A) (w : world) (s' : server) (a : A) :
  m (redis w) = (s', Returns a) ->
  on_redis m w = (set_redis s' w, Returns a).
Proof. intros Hm. unfold on_redis, zoom. by rewrite Hm. Qed.

Lemma fetch_insert_eq now d k e :
  live now e = true -> fetch now (<[k := e]> d) k = Some e.
Proof. intros Hl. unfold fetch. by rewrite lookup_insert_eq, Hl. Qed.

Lemma fetch_live now d k e : fetch now d k = Some e -> d !! k = Some e /\ live now e = true.
Proof.
  unfold fetch. destruct (d !! k) as [e'|]; [|done].
  destruct (live now e') eqn:E; [|done]. by intros [= ->].
Qed.

Lemma fetch_lookup now d k e :
  d !! k = Some e -> fetch now d k = if live now e then Some e else None.
Proof. intros Hd. unfold fetch. by rewrite Hd. Qed.

Lemma otp_key_not_metrics email : String.prefix "metrics:" ("otp:" +:+ email) = false.
Proof. reflexivity. Qed.

Section StoreOtp.
Context `{Datetime}.

(** In Redis mode [store_otp] leaves a hash with the code, no attempts and
    a five-minute expiry under the key of [email]. *)
Lemma store_otp_redis now email code w :
  is_available (helper w) = true -> ready now w email = true ->
  exists (w' : world) (hh : gmap string string),
    store_otp now email code w = (w', Returns tt)
    /\ helper w' = helper w /\ otp_storage w' = otp_storage w
    /\ otp_resend_cooldown w' = otp_resend_cooldown w
    /\ sessions w' = sessions w
    /\ up (redis w') = true
    /\ db (redis w') !! ("otp:" +:+ email)
       = Some (Entry (RHash hh) (Some (now + 300 * usec)))
    /\ hh !! "otp" = Some code /\ hh !! "attempts" = Some "0".
Proof.
  intros Hav Hr. unfold ready in Hr. rewrite Hav in Hr.
  apply andb_prop in Hr as [Hup Hty].
  destruct w as [h s os oc ss]; simpl in *.
  unfold store_otp. rewrite bind_gets. simpl. rewrite Hav.
  set (key := "otp:" +:+ email) in *.
  set (items := [("attempts", "0"); ("created_at", isoformat now)]).
  destruct (hset_answer h now s Hav Hup key ("otp", code) items) as [b Hb].
  { by destruct (fetch now (db s) key) as [[[?|?] ?]|]. }
  erewrite bind_on_redis by exact Hb. simpl.
  set (e1 := match fetch now (db s) key with
             | Some (Entry (RHash h0) ex) =>
                 Entry (RHash (hash_update (("otp", code) :: items) h0)) ex
             | _ => Entry (RHash (hash_update (("otp", code) :: items) ∅)) None
             end) in *.
  assert (exists hh ex, e1 = Entry (RHash hh) ex /\ live now e1 = true
                        /\ hh !! "otp" = Some code /\ hh !! "attempts" = Some "0")
    as (hh & ex & He1 & Hlive & Hotp & Hatt).
  { unfold e1. destruct (fetch now (db s) key) as [[[?|h0] ex]|] eqn:Hf;
      [done|..].
    - apply fetch_live in Hf as [_ Hl].
      exists (hash_update (("otp", code) :: items) h0), ex.
      repeat split; [done|..]; unfold hash_update, items; simpl;
        by simplify_map_eq.
    - exists (hash_update (("otp", code) :: items) ∅), None.
      repeat split; unfold hash_update, items; simpl; by simplify_map_eq. }
  set (s1 := with_db <[key := e1]> s).
  assert (up s1 = true) as Hup1 by done.
  erewrite bind_on_redis; cycle 1.
  { simpl. apply (expire_answer h now s1 Hav Hup1 key 300 (RHash hh) ex); [|lia].
    unfold s1. simpl. rewrite fetch_insert_eq by done. by rewrite He1. }
  simpl.
  set (s2 := with_db _ s1).
  destruct (track_metric_answer h now s2 "otp_generated" 1) as (s3 & Ht & Haway).
  erewrite on_redis_returns by exact Ht. simpl.
  destruct (Haway key (otp_key_not_metrics email)) as [Hu3 Hd3].
  eexists _, hh. split; [reflexivity|]. simpl.
  repeat split; try done.
  - by rewrite Hu3.
  - rewrite Hd3. unfold s2, s1. simpl. by rewrite lookup_insert_eq.
Qed.

Lemma store_otp_fallback now email code w :
  is_available (helper w) = false ->
  store_otp now email code w
  = (upd_otp_storage
       <[email := {| otp := code; expires_at := now + 300 * usec;
                     attempts := 0 |}]> w,
     Returns tt).
Proof.
  intros Hav. unfold store_otp. by rewrite bind_gets, Hav.
Qed.

End StoreOtp.

Lemma set_redis_same w : set_redis (redis w) w = w.
Proof. by destruct w. Qed.

Lemma exists_absent h now name s :
  fetch now (db s) name = None -> exists_ h now name s = (s, Returns false).
Proof.
  intros Hf. helper_cases h. destruct (up s); simpl; [|done]. by rewrite Hf.
Qed.

Lemma int_of_str_truthy a n : int_of_str a = Some n -> truthy (Some a) = true.
Proof. by destruct a. Qed.

Section VerifyOtp.
Context `{Datetime}.

Lemma verify_otp_redis_absent now email code w :
  is_available (helper w) = true ->
  fetch now (db (redis w)) ("otp:" +:+ email) = None ->
  verify_otp now email code w = (w, Returns (false, "OTP not found or expired")).
Proof.
  intros Hav Hf. unfold verify_otp. rewrite bind_gets, Hav.
  erewrite bind_on_redis by (by apply exists_absent).
  simpl. by rewrite set_redis_same.
Qed.

(** The three steps every Redis-mode [verify_otp] on a live hash starts
    with: the key exists, the stored code and the attempts are read. *)
Lemma verify_otp_redis_reads now email code w hh ex a n :
  is_available (helper w) = true -> up (redis w) = true ->
  fetch now (db (redis w)) ("otp:" +:+ email) = Some (Entry (RHash hh) ex) ->
  hh !! "attempts" = Some a -> int_of_str a = Some n ->
  verify_otp now email code w
  = (let key := "otp:" +:+ email in
     let rh := helper w in
     if bool_decide (hh !! "otp" = Some code) then
       on_redis (delete rh now [key]) ;;
       on_redis (redis_helper.track_metric rh now "otp_verified_success" 1) ;;
       ret (true, "OTP verified successfully")
     else if 3 <=? n + 1 then
       on_redis (delete rh now [key]) ;;
       on_redis (redis_helper.track_metric rh now "otp_too_many_attempts" 1) ;;
       ret (false, "Too many incorrect attempts")
     else
       on_redis (hincrby rh now key "attempts" 1) ;;
       on_redis (redis_helper.track_metric rh now "otp_verification_failed" 1) ;;
       ret (false, "Invalid OTP. " +:+ str_of_int (3 - (n + 1))
                     +:+ " attempt(s) remaining")) w.
Proof.
  intros Hav Hup Hf Ha Hn. unfold verify_otp. rewrite bind_gets, Hav.
  erewrite bind_on_redis by (by apply exists_answer).
  rewrite set_redis_same, Hf. simpl.
  erewrite bind_on_redis by (by apply hget_answer).
  rewrite set_redis_same, Hf.
  erewrite bind_on_redis by (by apply hget_answer).
  rewrite set_redis_same, Hf, Ha. simpl default.
  rewrite (int_of_str_truthy a n Hn), Hn.
  unfold bind at 1, ret at 1.
  by destruct (hh !! "otp").
Qed.

Lemma verify_otp_redis_match now email code w hh ex a n :
  is_available (helper w) = true -> up (redis w) = true ->
  fetch now (db (redis w)) ("otp:" +:+ email) = Some (Entry (RHash hh) ex) ->
  hh !! "attempts" = Some a -> int_of_str a = Some n ->
  hh !! "otp" = Some code ->
  exists w' : world,
    verify_otp now email code w = (w', Returns (true, "OTP verified successfully"))
    /\ helper w' = helper w /\ up (redis w') = true
    /\ db (redis w') !! ("otp:" +:+ email) = None.
Proof.
  intros Hav Hup Hf Ha Hn Ho.
  rewrite (verify_otp_redis_reads now email code w hh ex a n) by done.
  cbv zeta. rewrite bool_decide_eq_true_2 by done.
  destruct (delete_answer (helper w) now (redis w) Hav Hup ("otp:" +:+ email))
    as [b Hb].
  erewrite bind_on_redis by exact Hb.
  set (w1 := set_redis _ w).
  destruct (track_metric_answer (helper w) now (redis w1)
              "otp_verified_success" 1) as (s2 & Ht & Haway).
  erewrite bind_on_redis by exact Ht.
  destruct (Haway _ (otp_key_not_metrics email)) as [Hu Hd].
  eexists. split; [reflexivity|]. destruct w; simpl in *.
  repeat split; [congruence|]. rewrite Hd. apply lookup_delete_eq.
Qed.

Lemma verify_otp_redis_locked now email code w hh ex a n :
  is_available (helper w) = true -> up (redis w) = true ->
  fetch now (db (redis w)) ("otp:" +:+ email) = Some (Entry (RHash hh) ex) ->
  hh !! "attempts" = Some a -> int_of_str a = Some n ->
  hh !! "otp" <> Some code -> 2 <= n ->
  exists w' : world,
    verify_otp now email code w
    = (w', Returns (false, "Too many incorrect attempts"))
    /\ helper w' = helper w /\ up (redis w') = true
    /\ db (redis w') !! ("otp:" +:+ email) = None.
Proof.
  intros Hav Hup Hf Ha Hn Ho Hge.
  rewrite (verify_otp_redis_reads now email code w hh ex a n) by done.
  cbv zeta. rewrite bool_decide_eq_false_2 by done.
  destruct (3 <=? n + 1) eqn:E; [|lia].
  destruct (delete_answer (helper w) now (redis w) Hav Hup ("otp:" +:+ email))
    as [b Hb].
  erewrite bind_on_redis by exact Hb.
  set (w1 := set_redis _ w).
  destruct (track_metric_answer (helper w) now (redis w1)
              "otp_too_many_attempts" 1) as (s2 & Ht & Haway).
  erewrite bind_on_redis by exact Ht.
  destruct (Haway _ (otp_key_not_metrics email)) as [Hu Hd].
  eexists. split; [reflexivity|]. destruct w; simpl in *.
  repeat split; [congruence|]. rewrite Hd. apply lookup_delete_eq.
Qed.

Lemma verify_otp_redis_wrong now email code w hh ex a n :
  is_available (helper w) = true -> up (redis w) = true ->
  fetch now (db (redis w)) ("otp:" +:+ email) = Some (Entry (RHash hh) ex) ->
  hh !! "attempts" = Some a -> int_of_str a = Some n ->
  hh !! "otp" <> Some code -> 0 <= n < 2 ->
  exists w' : world,
    verify_otp now email code w
    = (w', Returns (false, "Invalid OTP. " +:+ str_of_int (2 - n)
                             +:+ " attempt(s) remaining"))
    /\ helper w' = helper w /\ up (redis w') = true
    /\ db (redis w') !! ("otp:" +:+ email)
       = Some (Entry (RHash (<["attempts" := str_of_int (n + 1)]> hh)) ex).
Proof.
  intros Hav Hup Hf Ha Hn Ho Hlt.
  rewrite (verify_otp_redis_reads now email code w hh ex a n) by done.
  cbv zeta. rewrite bool_decide_eq_false_2 by done.
  destruct (3 <=? n + 1) eqn:E; [lia|].
  erewrite bind_on_redis; cycle 1.
  { apply (hincrby_answer (helper w) now (redis w) Hav Hup _ _ hh ex a n);
      [done..|lia]. }
  set (w1 := set_redis _ w).
  destruct (track_metric_answer (helper w) now (redis w1)
              "otp_verification_failed" 1) as (s2 & Ht & Haway).
  erewrite bind_on_redis by exact Ht.
  destruct (Haway _ (otp_key_not_metrics email)) as [Hu Hd].
  replace (3 - (n + 1)) with (2 - n) by lia.
  eexists. split; [reflexivity|]. destruct w; simpl in *.
  repeat split; [congruence|]. rewrite Hd. apply lookup_insert_eq.
Qed.

(** The in-process branch, case by case. *)
Lemma verify_otp_fallback now email code w :
  is_available (helper w) = false ->
  verify_otp now email code w
  = match otp_storage w !! email with
    | None => (w, Returns (false, "OTP not found"))
    | Some d =>
        if expires_at d <? now then
          (upd_otp_storage (base.delete email) w, Returns (false, "OTP has expired"))
        else if 3 <=? attempts d then
          (upd_otp_storage (base.delete email) w,
           Returns (false, "Too many incorrect attempts"))
        else if String.eqb (otp d) code then
          (upd_otp_storage (base.delete email) w,
           Returns (true, "OTP verified successfully"))
        else
          (upd_otp_storage
             <[email := {| otp := otp d; expires_at := expires_at d;
                           attempts := attempts d + 1 |}]> w,
           Returns (false, "Invalid OTP"))
    end.
Proof.
  intros Hav. unfold verify_otp. rewrite bind_gets, Hav, bind_gets.
  destruct (otp_storage w !! email) as [d|]; [|done].
  destruct (expires_at d <? now); [done|].
  destruct (3 <=? attempts d); [done|].
  by destruct (String.eqb (otp d) code).
Qed.

End VerifyOtp.

(** ** Availability is decided once *)

Lemma init_answer url t0 s :
  __init__ url t0 s
  = (s, Returns {| redis_url := url;
                   redis_client := if valid_scheme url then Some (from_url url) else None;
                   redis_available := valid_scheme url && up s |}).
Proof.
  unfold __init__, _connect, try_except, bind, on_self, on_client, zoom, gets,
    modify, raise, ret; simpl.
  destruct (valid_scheme url); simpl; [|done].
  unfold PING, command, ret. by destruct (up s).
Qed.

Lemma preserves_at {A : Type} (R : relation world) (m : M world A) (w : world) :
  preserves R m -> R w (m w).1.
Proof. intros Hm. apply Hm. Qed.

Section ModeIsFixed.
Context `{Datetime}.

Lemma store_otp_mode now email code w :
  if is_available (helper w)
  then otp_storage (store_otp now email code w).1 = otp_storage w
  else redis (store_otp now email code w).1 = redis w.
Proof.
  destruct (is_available (helper w)) eqn:Hav; unfold store_otp;
    rewrite bind_gets, Hav; [|done].
  generalize (helper w). intros rh.
  apply (preserves_at (kept otp_storage)). preserve.
Qed.

Lemma verify_otp_mode now email code w :
  if is_available (helper w)
  then otp_storage (verify_otp now email code w).1 = otp_storage w
  else redis (verify_otp now email code w).1 = redis w.
Proof.
  destruct (is_available (helper w)) eqn:Hav; unfold verify_otp;
    rewrite bind_gets, Hav.
  - generalize (helper w). intros rh.
    apply (preserves_at (kept otp_storage)). preserve.
  - apply (preserves_at (kept redis)). preserve.
Qed.

End ModeIsFixed.

(** C9, as amended.  A store call that fails gives the unavailable signal for
    that call and changes nothing in the helper: with the availability flag
    set, a call during an outage returns the signal and the next call, once
    the server answers, returns the stored value.  But availability is probed
    once, by [__init__]: no OTP operation assigns the flag afterwards, with
    the flag clear no call reaches the server, and which store [store_otp]
    and [verify_otp] use depends on the flag alone. *)
Theorem availability_is_probed_once `{Datetime} (url : string) (t0 : Z)
    (s0 : server) (w : world) (now : Z) (email code key : string)
    (d : option string) :
  (exists h : RedisHelper,
     __init__ url t0 s0 = (s0, Returns h)
     /\ is_available h = valid_scheme url && up s0)
  /\ helper (store_otp now email code w).1 = helper w
  /\ helper (verify_otp now email code w).1 = helper w
  /\ (if is_available (helper w)
      then otp_storage (store_otp now email code w).1 = otp_storage w
           /\ otp_storage (verify_otp now email code w).1 = otp_storage w
      else redis (store_otp now email code w).1 = redis w
           /\ redis (verify_otp now email code w).1 = redis w)
  /\ (if is_available (helper w)
      then get (helper w) now key d (with_up false (redis w))
           = (with_up false (redis w), Returns d)
           /\ get (helper w) now key d (with_up true (redis w))
              = (with_up true (redis w),
                 Returns match fetch now (db (redis w)) key with
                         | Some (Entry (RString v) _) => Some v
                         | _ => d
                         end)
      else forall s : server, get (helper w) now key d s = (s, Returns d)).
Proof.
  split; [|split; [|split; [|split]]].
  - eexists. split; [apply init_answer|].
    unfold is_available. simpl. destruct (valid_scheme url), (up s0); done.
  - apply store_otp_keeps_helper.
  - apply verify_otp_keeps_helper.
  - pose proof (store_otp_mode now email code w) as Hs.
    pose proof (verify_otp_mode now email code w) as Hv.
    by destruct (is_available (helper w)).
  - destruct (is_available (helper w)) eqn:Hav.
    + split.
      * by helper_cases (helper w).
      * by rewrite get_answer.
    + intros s. unfold get, unusable. by rewrite Hav.
Qed.

Section StickyExample.
#[local] Existing Instance sample.numeric_datetime.

(** C9, as stated, fails.  A helper built during an outage never reaches the
    server again, although the server is back: [store_otp] keeps the code in
    process.  A helper built while the server answered keeps taking the Redis
    branch during a later outage: the code is stored nowhere and the right
    code is then reported as not found. *)
Lemma backend_choice_is_sticky :
  (__init__ sample.url 0 sample.server_down).2 = Returns sample.helper_fallback
  /\ (let w := sample.fresh sample.helper_fallback sample.server_up in
      let w' := (store_otp (sample.sec 1) "a@x.com" "123456" w).1 in
      up (redis w) = true
      /\ redis w' = redis w
      /\ otp_storage w' !! "a@x.com"
         = Some {| otp := "123456"; expires_at := sample.sec 301; attempts := 0 |})
  /\ (__init__ sample.url 0 sample.server_up).2 = Returns sample.helper_redis
  /\ (let w := sample.fresh sample.helper_redis sample.server_down in
      let w' := (store_otp (sample.sec 1) "a@x.com" "123456" w).1 in
      otp_storage w' = ∅
      /\ db (redis w') = ∅
      /\ (verify_otp (sample.sec 2) "a@x.com" "123456" w').2
         = Returns (false, "OTP not found or expired")).
Proof. vm_compute. repeat split. Qed.

End StickyExample.

(** ** Wrong codes *)

(** C1.  The code at the failing input: a code is issued and a wrong code is
    submitted three times, then the right code twice.  With Redis the third
    wrong code locks the record as the claim says; with the in-process store
    the third wrong code is answered like the first two, the record stays
    (holding three attempts), and it is the fourth call that reports too many
    attempts. *)
Theorem third_wrong_code_by_backend :
  (sample.three_wrong_then_right sample.world_redis).2
  = Returns [(false, "Invalid OTP. 2 attempt(s) remaining");
             (false, "Invalid OTP. 1 attempt(s) remaining");
             (false, "Too many incorrect attempts");
             (false, "OTP not found or expired");
             (false, "OTP not found or expired")]
  /\ (sample.three_wrong_then_right sample.world_fallback).2
     = Returns [(false, "Invalid OTP");
                (false, "Invalid OTP");
                (false, "Invalid OTP");
                (false, "Too many incorrect attempts");
                (false, "OTP not found")].
Proof. vm_compute. done. Qed.

(** C2.  A record that has counted two wrong codes still accepts the right
    code: [verify_otp] answers that the OTP is verified and the record is
    gone afterwards, with either backend. *)
Theorem right_code_on_third_attempt `{Datetime} (now : Z) (w : world)
    (email code : string) :
  otp_record now w email = Some (code, 2) ->
  exists w' : world,
    verify_otp now email code w = (w', Returns (true, "OTP verified successfully"))
    /\ forall t : Z, has_record t w' email = false.
Proof.
  unfold otp_record, has_record.
  destruct (is_available (helper w)) eqn:Hav.
  - destruct (up (redis w)) eqn:Hup; [|done].
    destruct (fetch now (db (redis w)) ("otp:" +:+ email))
      as [[[v|hh] ex]|] eqn:Hf; [done| |done].
    destruct (hh !! "otp") as [c|] eqn:Ho; [|done].
    destruct (hh !! "attempts") as [a|] eqn:Ha; [|done].
    destruct (int_of_str a) as [n|] eqn:Hn; [|done].
    intros [= -> ->].
    destruct (verify_otp_redis_match now email code w hh ex a 2)
      as (w' & Hv & Hh & Hu & Hd); [done..|].
    exists w'. split; [done|]. intros t. rewrite Hh, Hav.
    unfold fetch. by rewrite Hd.
  - destruct (otp_storage w !! email) as [d|] eqn:Hd; [|done].
    destruct (expires_at d <? now) eqn:He; [done|]. intros [= Ho Ha].
    rewrite verify_otp_fallback, Hd, He, Ha, Ho by done. simpl.
    rewrite String.eqb_refl. eexists. split; [done|]. intros t. simpl.
    by rewrite Hav, lookup_delete_eq.
Qed.

Section ThirdAttemptExample.
#[local] Existing Instance sample.numeric_datetime.

Lemma right_code_on_third_attempt_witness :
  exists w' : world,
    verify_otp (sample.sec 3) "a@x.com" "123456"
      (sample.two_wrong sample.world_redis).1
    = (w', Returns (true, "OTP verified successfully"))
    /\ forall t : Z, has_record t w' "a@x.com" = false.
Proof.
  apply (right_code_on_third_attempt (sample.sec 3)
           (sample.two_wrong sample.world_redis).1 "a@x.com" "123456").
  vm_compute. reflexivity.
Defined.

End ThirdAttemptExample.

(** ** Issuing *)

Lemma live_until now exp v : now <= exp -> live now (Entry v (Some exp)) = true.
Proof. intros Hle. unfold live. simpl. lia. Qed.

Lemma expired_after now exp v : exp < now -> live now (Entry v (Some exp)) = false.
Proof. intros Hlt. unfold live. simpl. lia. Qed.

Section Issue.
Context `{Datetime}.



End Issue.


Section SingleUseExample.
#[local] Existing Instance sample.numeric_datetime.


End SingleUseExample.

(** ** Three wrong codes, for every address *)

Section ThreeWrongCodes.
Context `{Datetime}.

(** With Redis, after any issuance: two wrong codes are answered with the
    attempts left, the third locks and deletes the record, and from then on
    nothing is found. *)
Lemma redis_locks_on_third_wrong_code now w email code c1 c2 c3 t1 t2 t3 :
  is_available (helper w) = true -> ready now w email = true ->
  c1 <> code -> c2 <> code -> c3 <> code ->
  t1 <= now + 300 * usec -> t2 <= now + 300 * usec -> t3 <= now + 300 * usec ->
  exists w0 w1 w2 w3 : world,
    store_otp now email code w = (w0, Returns tt)
    /\ verify_otp t1 email c1 w0
       = (w1, Returns (false, "Invalid OTP. 2 attempt(s) remaining"))
    /\ verify_otp t2 email c2 w1
       = (w2, Returns (false, "Invalid OTP. 1 attempt(s) remaining"))
    /\ verify_otp t3 email c3 w2
       = (w3, Returns (false, "Too many incorrect attempts"))
    /\ forall (t : Z) (c : string),
         verify_otp t email c w3 = (w3, Returns (false, "OTP not found or expired")).
Proof.
  intros Hav Hr Hc1 Hc2 Hc3 Ht1 Ht2 Ht3.
  destruct (store_otp_redis now email code w Hav Hr)
    as (w0 & hh & Hs & Hh0 & _ & _ & _ & Hu0 & Hd0 & Ho & Ha).
  assert (forall c, c <> code ->
            forall h' : gmap string string, h' !! "otp" = Some code ->
              h' !! "otp" <> Some c) as Hne.
  { intros c Hc h' -> [= ->]. done. }
  destruct (verify_otp_redis_wrong t1 email c1 w0 hh
              (Some (now + 300 * usec)) "0" 0)
    as (w1 & Hv1 & Hh1 & Hu1 & Hd1); [congruence|done| |done|done|by eauto|lia|].
  { by rewrite (fetch_lookup _ _ _ _ Hd0), live_until. }
  set (hh1 := <["attempts" := str_of_int (0 + 1)]> hh) in *.
  destruct (verify_otp_redis_wrong t2 email c2 w1 hh1
              (Some (now + 300 * usec)) "1" 1)
    as (w2 & Hv2 & Hh2 & Hu2 & Hd2); [congruence|done| | |done| |lia|].
  { by rewrite (fetch_lookup _ _ _ _ Hd1), live_until. }
  { unfold hh1. by rewrite lookup_insert_eq. }
  { apply Hne; [done|]. unfold hh1. by rewrite lookup_insert_ne. }
  set (hh2 := <["attempts" := str_of_int (1 + 1)]> hh1) in *.
  destruct (verify_otp_redis_locked t3 email c3 w2 hh2
              (Some (now + 300 * usec)) "2" 2)
    as (w3 & Hv3 & Hh3 & Hu3 & Hd3); [congruence|done| | |done| |lia|].
  { by rewrite (fetch_lookup _ _ _ _ Hd2), live_until. }
  { unfold hh2. by rewrite lookup_insert_eq. }
  { apply Hne; [done|]. unfold hh2, hh1. by rewrite !lookup_insert_ne. }
  exists w0, w1, w2, w3. repeat split; try done.
  intros t c. apply verify_otp_redis_absent; [congruence|].
  unfold fetch. by rewrite Hd3.
Qed.

(** With the in-process store the third wrong code is answered like the
    first two and the record stays; the call after it, whatever the code,
    is the one that locks. *)
Lemma fallback_locks_on_fourth_call now w email code c1 c2 c3 c4 t1 t2 t3 t4 :
  is_available (helper w) = false ->
  c1 <> code -> c2 <> code -> c3 <> code ->
  t1 <= now + 300 * usec -> t2 <= now + 300 * usec ->
  t3 <= now + 300 * usec -> t4 <= now + 300 * usec ->
  exists w0 w1 w2 w3 w4 : world,
    store_otp now email code w = (w0, Returns tt)
    /\ verify_otp t1 email c1 w0 = (w1, Returns (false, "Invalid OTP"))
    /\ verify_otp t2 email c2 w1 = (w2, Returns (false, "Invalid OTP"))
    /\ verify_otp t3 email c3 w2 = (w3, Returns (false, "Invalid OTP"))
    /\ otp_record t4 w3 email = Some (code, 3)
    /\ verify_otp t4 email c4 w3
       = (w4, Returns (false, "Too many incorrect attempts")).
Proof.
  intros Hav Hc1 Hc2 Hc3 Ht1 Ht2 Ht3 Ht4.
  assert (forall c, c <> code -> String.eqb code c = false) as Hne.
  { intros c Hc. apply String.eqb_neq. congruence. }
  assert (forall t, t <= now + 300 * usec -> (now + 300 * usec <? t) = false)
    as Hin by (intros; lia).
  rewrite store_otp_fallback by done.
  eexists _, _, _, _, _. split; [reflexivity|].
  repeat (rewrite verify_otp_fallback by done; simpl;
          rewrite lookup_insert_eq; simpl;
          rewrite ?Hin, ?Hne by done; simpl).
  split; [reflexivity|]. simpl.
  repeat (rewrite verify_otp_fallback by done; simpl;
          rewrite lookup_insert_eq; simpl;
          rewrite ?Hin, ?Hne by done; simpl).
  split; [reflexivity|]. simpl.
  repeat (rewrite verify_otp_fallback by done; simpl;
          rewrite lookup_insert_eq; simpl;
          rewrite ?Hin, ?Hne by done; simpl).
  split; [reflexivity|]. simpl.
  unfold otp_record. simpl. rewrite Hav, lookup_insert_eq. simpl.
  rewrite Hin by done. split; [reflexivity|].
  rewrite verify_otp_fallback by done; simpl.
  rewrite lookup_insert_eq. simpl. by rewrite Hin.
Qed.

End ThreeWrongCodes.

(** ** The two backends, side by side *)


Lemma bind_returns {S A B : Type} (m : M S A) (k : A -> M S B) (s s' : S) (a : A) :
  m s = (s', Returns a) -> bind m k s = k a s'.
Proof. intros Hm. unfold bind. by rewrite Hm. Qed.

Section SideBySide.
Context `{Datetime}.


Lemma verify_otp_keeps_key k now email code :
  k <> "otp:" +:+ email -> String.prefix "metrics:" k = false ->
  preserves (key_kept k) (verify_otp now email code).
Proof. intros Hk Hm. unfold verify_otp. preserve; key_facts. Qed.






End SideBySide.



Section SideBySideExamples.
#[local] Existing Instance sample.numeric_datetime.



End SideBySideExamples.

(** ** Resending *)

#[local] Instance only_metrics_preorder : PreOrder only_metrics.
Proof.
  split.
  - by intros w.
  - intros w1 w2 w3 (? & ? & ? & ? & ? & Hk1) (? & ? & ? & ? & ? & Hk2).
    repeat split; try congruence. intros k Hk. by rewrite Hk2, Hk1.
Qed.



Lemma fetch_same now d d' k : d' !! k = d !! k -> fetch now d' k = fetch now d k.
Proof. intros Hd. unfold fetch. by rewrite Hd. Qed.


Section Resend.
Context `{Datetime}.






End Resend.


Lemma otp_prefix (rest : string) : String.prefix "otp:" ("otp:" +:+ rest) = true.
Proof. cbv [String.append]. simpl. by destruct rest. Qed.

Section FormSubmission.
Context `{Datetime}.

Lemma store_otp_keeps {T : Type} (f : world -> T) now email code :
  (forall r w, f (set_redis r w) = f w) ->
  (forall g w, f (upd_otp_storage g w) = f w) ->
  preserves (kept f) (store_otp now email code).
Proof. intros Hr Hs. unfold store_otp. preserve. Qed.

Lemma handle_form_submission_keeps {T : Type} (f : world -> T) e req :
  (forall r w, f (set_redis r w) = f w) ->
  (forall g w, f (upd_otp_storage g w) = f w) ->
  (forall g w, f (upd_sessions g w) = f w) ->
  preserves (kept f) (handle_form_submission e req).
Proof.
  intros Hr Hs Hss. unfold handle_form_submission, send_otp_email, send_email.
  preserve;
    first [ by apply store_otp_keeps | by apply track_metric_keeps
          | by apply kept_modify ].
Qed.

Lemma handle_form_submission_keeps_key k e req :
  String.prefix "otp:" k = false -> String.prefix "metrics:" k = false ->
  preserves (key_kept k) (handle_form_submission e req).
Proof.
  intros Ho Hm.
  assert (forall x, k <> "otp:" +:+ x) as Hne.
  { intros x ->. by rewrite otp_prefix in Ho. }
  unfold handle_form_submission, send_otp_email, send_email.
  preserve;
    first [ by apply track_metric_away
          | apply hset_away, Hne
          | apply expire_away, Hne ].
Qed.


End FormSubmission.


Section FormHandler.
Context `{Datetime}.





End FormHandler.



#[local] Instance numeric_datetime_laws : @DatetimeLaws sample.numeric_datetime.
Proof.
  split; simpl.
  - apply int_of_str_of_int.
  - intros t Ht. pose proof (int_of_str_of_int t) as Hn. by rewrite Ht in Hn.
Qed.

Section ResendExamples.
#[local] Existing Instance sample.numeric_datetime.


(** A form submission in between does not release the cooldown: the form
    is submitted at 0, a resend issues a code at 1 s, the form is
    submitted again at 2 s, and the resend at 3 s is told to wait 28
    seconds.  Both backends behave so. *)
Lemma second_form_does_not_release_the_cooldown :
  (resend_otp (sample.the_env (sample.sec 3) "444444") sample.resend_post
     (handle_form_submission (sample.the_env (sample.sec 2) "333333")
        (sample.form_post "10.0.0.1")
        (sample.after_resend sample.world_redis)).1).2
  = Returns (render_template "otp" (Some "a@x.com") [WaitSeconds 28])
  /\ (resend_otp (sample.the_env (sample.sec 3) "444444") sample.resend_post
        (handle_form_submission (sample.the_env (sample.sec 2) "333333")
           (sample.form_post "10.0.0.1")
           (sample.after_resend sample.world_fallback)).1).2
     = Returns (render_template "otp" (Some "a@x.com") [WaitSeconds 28]).
Proof. split; by vm_compute. Qed.




End ResendExamples.

(** ** What the handlers answer *)

Lemma promises_ret {A : Type} (P : A -> Prop) (a : A) : P a -> promises P (ret a).
Proof. by intros Ha w. Qed.

Lemma promises_gets {A : Type} (f : world -> A) : promises anything (gets f).
Proof. by intros w. Qed.

Lemma promises_modify (g : world -> world) : promises anything (modify g).
Proof. by intros w. Qed.

Lemma promises_on_redis {A : Type} (m : M server A) :
  (forall s, returned (m s).2 = true) -> promises anything (on_redis m).
Proof.
  intros Hm w. unfold on_redis, zoom. specialize (Hm (redis w)).
  by destruct (m (redis w)) as [s [a|x]].
Qed.

Lemma promises_bind {A B : Type} (P : B -> Prop) (m : M world A)
    (k : A -> M world B) :
  promises anything m -> (forall a, promises P (k a)) -> promises P (bind m k).
Proof.
  intros Hm Hk w. unfold bind. specialize (Hm w).
  destruct (m w) as [w1 [a|x]]; [apply Hk|done].
Qed.

Lemma promises_bind_at {A B : Type} (P : B -> Prop) (m : M world A)
    (k : A -> M world B) (w : world) :
  returned (m w).2 = true -> (forall a, promises P (k a)) ->
  match (bind m k w).2 with
  | Returns b => P b
  | Raises _ => False
  end.
Proof.
  intros Hm Hk. unfold bind. destruct (m w) as [w1 [a|x]]; [apply Hk|done].
Qed.

Lemma grants_ret {A : Type} (P : A -> Prop) (a : A) : P a -> grants P (ret a).
Proof. by intros Ha w. Qed.

Lemma grants_raise {A : Type} (P : A -> Prop) (x : exn) : grants P (raise x).
Proof. by intros w. Qed.

Lemma grants_bind {A B : Type} (P : B -> Prop) (m : M world A)
    (k : A -> M world B) :
  (forall a, grants P (k a)) -> grants P (bind m k).
Proof. intros Hk w. unfold bind. destruct (m w) as [w1 [a|x]]; [apply Hk|done]. Qed.

Lemma promises_try {A : Type} (P : A -> Prop) (m : M world A)
    (hd : exn -> M world A) :
  grants P m -> (forall x, promises P (hd x)) -> promises P (try_except m hd).
Proof.
  intros Hm Hh w. unfold try_except. specialize (Hm w).
  destruct (m w) as [w1 [a|x]]; [done|apply Hh].
Qed.

Lemma promises_weaken {A : Type} (P : A -> Prop) (m : M world A) :
  promises P m -> promises anything m.
Proof. intros Hm w. specialize (Hm w). by destruct (m w).2. Qed.

Lemma promises_at {A : Type} (P : A -> Prop) (m : M world A) (w : world) :
  promises P m ->
  match (m w).2 with
  | Returns a => P a
  | Raises _ => False
  end.
Proof. intros Hm. apply Hm. Qed.

Lemma promised {A : Type} (P : A -> Prop) (m : M world A) (w : world) :
  promises P m -> exists (w' : world) (a : A), m w = (w', Returns a) /\ P a.
Proof.
  intros Hm. specialize (Hm w). destruct (m w) as [w' [a|x]]; [by eauto|done].
Qed.

Lemma redis_track_metric_returns `{Datetime} h now name v s :
  returned (redis_helper.track_metric h now name v s).2 = true.
Proof. by destruct (track_metric_answer h now s name v) as (s' & -> & _). Qed.

Ltac promise :=
  repeat first
    [ apply promises_ret; done
    | apply grants_ret; done
    | apply grants_raise
    | apply promises_gets
    | apply promises_modify
    | apply promises_bind; [| intros ?]
    | apply grants_bind; intros ?
    | apply promises_try; [| intros ?]
    | apply promises_on_redis; intros ?;
      first [ apply get_degrades | apply set_degrades | apply hget_degrades
            | apply hset_degrades | apply expire_degrades | apply delete_degrades
            | apply exists_degrades | apply incr_degrades | apply hincrby_degrades
            | apply redis_track_metric_returns ]
    | match goal with
      | |- promises _ (if ?b then _ else _) => destruct b
      | |- promises _ (match ?x with _ => _ end) => destruct x
      | |- grants _ (if ?b then _ else _) => destruct b
      | |- grants _ (match ?x with _ => _ end) => destruct x
      end ].

Section HandlersAnswer.
Context `{Datetime}.

Lemma track_metric_promises now name : promises anything (track_metric now name).
Proof.
  unfold track_metric. promise.
Qed.

Lemma store_otp_promises now email code :
  promises anything (store_otp now email code).
Proof.
  unfold store_otp. promise.
Qed.

Lemma handle_form_submission_promises e req :
  promises (fun r => throttled r = false) (handle_form_submission e req).
Proof.
  unfold handle_form_submission, send_otp_email, send_email. cbv zeta.
  repeat match goal with
  | |- context [if ?b then _ else _] =>
      lazymatch type of b with bool => destruct b end
  end; simpl; promise.
Qed.

Lemma process_verified_submission_promises e req fd :
  promises (fun r => throttled r = false) (process_verified_submission e req fd).
Proof.
  unfold process_verified_submission, send_email.
  destruct (env_local_file_ok e), (env_smtp e); promise.
Qed.

Lemma handle_otp_verification_fallback e req w :
  is_available (helper w) = false ->
  match (handle_otp_verification e req w).2 with
  | Returns r => throttled r = false
  | Raises _ => False
  end.
Proof.
  intros Hav. unfold handle_otp_verification.
  destruct (negb _ || negb _); [done|].
  apply promises_bind_at.
  - rewrite verify_otp_fallback by done.
    destruct (otp_storage w !! _) as [d|]; [|done].
    destruct (expires_at d <? env_now e); [done|].
    destruct (3 <=? attempts d); [done|].
    by destruct (String.eqb (otp d) _).
  - intros [is_valid message]. destruct is_valid; simpl.
    + unfold process_verified_submission.
      destruct (env_local_file_ok e); promise.
    + destruct (_ || _); promise.
Qed.

End HandlersAnswer.

(** ** Rate limiting *)

Lemma form_rate_key_not_otp ip : String.prefix "otp:" ("rate_limit:form:" +:+ ip) = false.
Proof. reflexivity. Qed.

Lemma form_rate_key_not_metrics ip :
  String.prefix "metrics:" ("rate_limit:form:" +:+ ip) = false.
Proof. reflexivity. Qed.

Lemma window_count w rate_key c closes t :
  window w rate_key c closes -> t <= closes ->
  rate_count t w rate_key = Some c.
Proof.
  intros (_ & _ & Hd) Ht. unfold rate_count.
  rewrite (fetch_lookup _ _ _ _ Hd), live_until by done.
  apply int_of_str_of_int.
Qed.

Lemma counting_count w rate_key c ex t :
  counting w rate_key c ex -> before ex t -> rate_count t w rate_key = Some c.
Proof.
  intros (_ & _ & Hd) Ht. unfold rate_count.
  rewrite (fetch_lookup _ _ _ _ Hd).
  replace (live t (Entry (RString (str_of_int c)) ex)) with true.
  - apply int_of_str_of_int.
  - destruct ex as [closes|]; [|done]. symmetry. by apply live_until.
Qed.

Lemma counting_fetch w rate_key c ex t :
  counting w rate_key c ex -> before ex t ->
  fetch t (db (redis w)) rate_key = Some (Entry (RString (str_of_int c)) ex).
Proof.
  intros (_ & _ & Hd) Ht. rewrite (fetch_lookup _ _ _ _ Hd).
  destruct ex as [closes|]; [|done]. by rewrite live_until.
Qed.

Lemma incr_absent h now s name :
  is_available h = true -> up s = true -> fetch now (db s) name = None ->
  incr h now name 1 s
  = (with_db <[name := Entry (RString "1") None]> s, Returns (Some 1)).
Proof.
  intros Hh Hup Hf. generalize (usable h Hh). helper_cases h. intros _.
  rewrite Hup, Hf. change (in_int64 1) with true. cbn [negb].
  unfold bind, ret, int_str. by rewrite int_of_str_of_int.
Qed.

Section RateLimit.
Context `{Datetime}.

Lemma cleanup_redis_mode now w :
  is_available (helper w) = true -> cleanup_old_data now w = (w, Returns tt).
Proof. intros Hav. unfold cleanup_old_data. by rewrite bind_gets, Hav. Qed.

(** No window is open: the block opens one and lets the request through. *)
Lemma rate_limit_block_opens read now rate_key ceiling win rejection w :
  is_available (helper w) = true -> up (redis w) = true -> 0 < win ->
  fetch read (db (redis w)) rate_key = None ->
  rate_limit_block read now rate_key ceiling win rejection w
  = (set_redis
       (with_db <[rate_key := Entry (RString "1") (Some (now + win * usec))]>
          (redis w)) w,
     Returns None).
Proof.
  intros Hav Hup Hwin Hf. unfold rate_limit_block. rewrite bind_gets, Hav.
  erewrite bind_on_redis by (by apply get_answer).
  rewrite Hf, set_redis_same.
  erewrite bind_on_redis; [reflexivity|]. by apply set_answer.
Qed.

(** The counter is below the ceiling and the key is there for the read and
    for the write: the block counts the request and lets it through. *)
Lemma rate_limit_block_counts read now rate_key ceiling win rejection w c ex :
  counting w rate_key c ex -> before ex read -> before ex now ->
  0 <= c < ceiling -> ceiling <= 1000 ->
  rate_limit_block read now rate_key ceiling win rejection w
  = (set_redis
       (with_db <[rate_key := Entry (RString (str_of_int (c + 1))) ex]>
          (redis w)) w,
     Returns None).
Proof.
  intros Hw Hread Hnow Hc Hceil. pose proof Hw as (Hav & Hup & Hd).
  unfold rate_limit_block. rewrite bind_gets, Hav.
  erewrite bind_on_redis by (by apply get_answer).
  rewrite (counting_fetch _ _ _ _ _ Hw Hread), set_redis_same. cbv iota.
  rewrite str_of_int_nonempty, int_of_str_of_int.
  unfold bind at 1, ret at 1.
  destruct (ceiling <=? c) eqn:E; [lia|].
  erewrite bind_on_redis; [reflexivity|].
  apply (incr_answer _ _ _ Hav Hup _ _ _ c (counting_fetch _ _ _ _ _ Hw Hnow));
    [apply int_of_str_of_int|lia].
Qed.

(** The counter is below the ceiling, the key is there for the read and
    has expired when the write arrives: [INCR] finds no key and makes a
    new one, which has no expiry. *)
Lemma rate_limit_block_races read now rate_key ceiling win rejection w c closes :
  window w rate_key c closes -> read <= closes -> closes < now ->
  0 <= c < ceiling ->
  rate_limit_block read now rate_key ceiling win rejection w
  = (set_redis
       (with_db <[rate_key := Entry (RString "1") None]> (redis w)) w,
     Returns None).
Proof.
  intros Hw Hread Hnow Hc. pose proof Hw as (Hav & Hup & Hd).
  unfold rate_limit_block. rewrite bind_gets, Hav.
  erewrite bind_on_redis by (by apply get_answer).
  rewrite (counting_fetch _ _ _ (Some closes) _ Hw Hread), set_redis_same.
  cbv iota. rewrite str_of_int_nonempty, int_of_str_of_int.
  unfold bind at 1, ret at 1.
  destruct (ceiling <=? c) eqn:E; [lia|].
  erewrite bind_on_redis; [reflexivity|].
  apply incr_absent; [done..|].
  by rewrite (fetch_lookup _ _ _ _ Hd), expired_after.
Qed.

(** The counter is at the ceiling: the block answers with the throttling
    page and leaves the counter alone. *)
Lemma rate_limit_block_rejects read now rate_key ceiling win rejection w c ex :
  counting w rate_key c ex -> before ex read -> ceiling <= c ->
  rate_limit_block read now rate_key ceiling win rejection w
  = (w, Returns (Some (render_template "form" None [rejection]))).
Proof.
  intros Hw Hread Hc. pose proof Hw as (Hav & Hup & Hd).
  unfold rate_limit_block. rewrite bind_gets, Hav.
  erewrite bind_on_redis by (by apply get_answer).
  rewrite (counting_fetch _ _ _ _ _ Hw Hread), set_redis_same. cbv iota.
  rewrite str_of_int_nonempty, int_of_str_of_int.
  unfold bind at 1, ret at 1.
  destruct (ceiling <=? c) eqn:E; [done|lia].
Qed.

Lemma index_form_post ip e req w :
  is_form_post ip req = true -> is_available (helper w) = true ->
  index e req w
  = (let! rejected :=
       rate_limit_block (env_read e) (env_now e) ("rate_limit:form:" +:+ ip)
         10 3600 TooManySubmissions in
     match rejected with
     | Some r => ret r
     | None => handle_form_submission e req
     end) w.
Proof.
  unfold is_form_post. intros Hreq Hav. unfold index.
  rewrite (bind_returns _ _ _ _ _ (cleanup_redis_mode (env_now e) w Hav)).
  destruct (method req); [done|].
  apply andb_prop in Hreq as [Hstep Hip]. apply String.eqb_eq in Hip.
  by rewrite Hstep, Hip.
Qed.

(** The handler answers, does not throttle, and keeps the counter. *)
Lemma handler_keeps_counting ip e req w c ex :
  counting w ("rate_limit:form:" +:+ ip) c ex ->
  exists (w' : world) (r : response),
    handle_form_submission e req w = (w', Returns r)
    /\ throttled r = false
    /\ counting w' ("rate_limit:form:" +:+ ip) c ex.
Proof.
  intros (Hav & Hup & Hd).
  destruct (promised _ _ w (handle_form_submission_promises e req))
    as (w' & r & Hrun & Hr).
  exists w', r. split; [done|]. split; [done|].
  pose proof (handle_form_submission_keeps helper e req
                ltac:(done) ltac:(done) ltac:(done) w) as Hh.
  destruct (handle_form_submission_keeps_key _ e req
              (form_rate_key_not_otp ip) (form_rate_key_not_metrics ip) w)
    as [Hu Hk].
  rewrite Hrun in Hh, Hu, Hk. unfold kept in Hh. simpl in *.
  repeat split; congruence.
Qed.

Lemma index_opens_window ip e req w :
  is_form_post ip req = true ->
  is_available (helper w) = true -> up (redis w) = true ->
  fetch (env_read e) (db (redis w)) ("rate_limit:form:" +:+ ip) = None ->
  exists (w' : world) (r : response),
    index e req w = (w', Returns r)
    /\ throttled r = false
    /\ window w' ("rate_limit:form:" +:+ ip) 1 (env_now e + 3600 * usec).
Proof.
  intros Hreq Hav Hup Hf. rewrite (index_form_post ip e req w Hreq Hav).
  cbv zeta.
  erewrite bind_returns by (by apply rate_limit_block_opens).
  apply (handler_keeps_counting ip e req _ 1 (Some (env_now e + 3600 * usec))).
  destruct w; simpl in *.
  repeat split; [done..|]. apply lookup_insert_eq.
Qed.

(** A form post that finds the key at its read and at its write. *)
Lemma index_counts ip e req w c ex :
  is_form_post ip req = true ->
  counting w ("rate_limit:form:" +:+ ip) c ex ->
  before ex (env_read e) -> before ex (env_now e) -> 0 <= c <= 10 ->
  exists (w' : world) (r : response),
    index e req w = (w', Returns r)
    /\ throttled r = (10 <=? c)
    /\ counting w' ("rate_limit:form:" +:+ ip) (Z.min (c + 1) 10) ex.
Proof.
  intros Hreq Hw Hread Hnow Hc. pose proof Hw as (Hav & Hup & Hd).
  rewrite (index_form_post ip e req w Hreq Hav). cbv zeta.
  destruct (Z.leb_spec 10 c) as [Hfull|Hroom].
  - erewrite bind_returns by (by eapply rate_limit_block_rejects).
    exists w, (render_template "form" None [TooManySubmissions]).
    split; [done|]. split; [done|]. by replace (Z.min (c + 1) 10) with c by lia.
  - erewrite bind_returns
      by (eapply rate_limit_block_counts; [exact Hw|done|done|lia|lia]).
    replace (Z.min (c + 1) 10) with (c + 1) by lia.
    apply handler_keeps_counting. destruct w; simpl in *.
    repeat split; [done..|]. apply lookup_insert_eq.
Qed.

(** A form post whose read finds the key and whose write comes after the
    key has expired. *)
Lemma index_races ip e req w c closes :
  is_form_post ip req = true ->
  window w ("rate_limit:form:" +:+ ip) c closes ->
  env_read e <= closes -> closes < env_now e -> 0 <= c < 10 ->
  exists (w' : world) (r : response),
    index e req w = (w', Returns r)
    /\ throttled r = false
    /\ counting w' ("rate_limit:form:" +:+ ip) 1 None.
Proof.
  intros Hreq Hw Hread Hnow Hc. pose proof Hw as (Hav & Hup & Hd).
  rewrite (index_form_post ip e req w Hreq Hav). cbv zeta.
  erewrite bind_returns
    by (eapply rate_limit_block_races; [exact Hw|done|done|lia]).
  apply (handler_keeps_counting ip e req _ 1 None). destruct w; simpl in *.
  repeat split; [done..|]. apply lookup_insert_eq.
Qed.

Lemma serve_counting ip ex reqs : forall (c : Z) (w : world),
  counting w ("rate_limit:form:" +:+ ip) c ex -> 0 <= c <= 10 ->
  Forall (fun er : env * request =>
            is_form_post ip er.2 = true
            /\ before ex (env_read er.1) /\ before ex (env_now er.1)) reqs ->
  exists (w' : world) (rs : list response),
    serve reqs w = (w', Returns rs)
    /\ length rs = length reqs
    /\ map throttled rs
       = map (fun i => 10 <=? c + Z.of_nat i) (seq 0 (length reqs))
    /\ counting w' ("rate_limit:form:" +:+ ip)
         (Z.min (c + Z.of_nat (length reqs)) 10) ex.
Proof.
  induction reqs as [|[e req] reqs IH]; intros c w Hw Hc Hall.
  - exists w, []. split; [done|]. split; [done|]. split; [done|].
    simpl length. change (Z.of_nat 0) with 0.
    by rewrite Z.add_0_r, Z.min_l by lia.
  - apply Forall_cons in Hall as [(Hreq & Hread & Hnow) Hall].
    simpl in Hreq, Hread, Hnow.
    destruct (index_counts ip e req w c ex Hreq Hw Hread Hnow Hc)
      as (w1 & r & Hrun & Hr & Hw1).
    destruct (IH (Z.min (c + 1) 10) w1 Hw1 ltac:(lia) Hall)
      as (w' & rs & Hserve & Hlen & Hthr & Hw').
    exists w', (r :: rs). simpl.
    rewrite (bind_returns _ _ _ _ _ Hrun), (bind_returns _ _ _ _ _ Hserve).
    split; [done|]. split; [by rewrite Hlen|]. split.
    + rewrite Hr, Hthr. f_equal; [f_equal; lia|].
      rewrite <- seq_shift, map_map. apply map_ext. intros i.
      destruct (Z.leb_spec 10 (Z.min (c + 1) 10 + Z.of_nat i)),
        (Z.leb_spec 10 (c + Z.of_nat (S i))); lia.
    + replace (Z.min (c + Z.of_nat (S (length reqs))) 10)
        with (Z.min (Z.min (c + 1) 10 + Z.of_nat (length reqs)) 10) by lia.
      done.
Qed.

(** When no request straddles the end of the window, the limiter does
    what the specification says.  From the request that opens the window
    on, and whatever the forms contain: of the form posts of one client
    whose read and write both fall within the window, the first ten are
    let through to the handler and every later one gets the throttling
    page; the stored counter is the number of requests so far, capped at
    the ceiling of 10, so a rejection does not increment it; and a request
    made after the window has closed is let through and starts a new
    count at 1. *)
Lemma form_submit_window (ip : string) (w : world) (e0 : env)
    (req0 : request) (rest : list (env * request)) (k : nat) :
  is_available (helper w) = true -> up (redis w) = true ->
  fetch (env_read e0) (db (redis w)) ("rate_limit:form:" +:+ ip) = None ->
  is_form_post ip req0 = true ->
  Forall (fun er : env * request =>
            is_form_post ip er.2 = true
            /\ env_read er.1 <= env_now e0 + 3600 * usec
            /\ env_now er.1 <= env_now e0 + 3600 * usec) rest ->
  exists (w' : world) (rs : list response),
    serve (take (S k) ((e0, req0) :: rest)) w = (w', Returns rs)
    /\ length rs = length (take (S k) ((e0, req0) :: rest))
    /\ map throttled rs = map (fun i => 10 <=? Z.of_nat i) (seq 0 (length rs))
    /\ (forall t, t <= env_now e0 + 3600 * usec ->
          rate_count t w' ("rate_limit:form:" +:+ ip)
          = Some (Z.min (Z.of_nat (length rs)) 10))
    /\ (forall (e : env) (req : request),
          is_form_post ip req = true ->
          env_now e0 + 3600 * usec < env_read e ->
          exists (w'' : world) (r : response),
            index e req w' = (w'', Returns r)
            /\ throttled r = false
            /\ rate_count (env_now e) w'' ("rate_limit:form:" +:+ ip) = Some 1).
Proof.
  intros Hav Hup Hf Hreq0 Hall.
  destruct (index_opens_window ip e0 req0 w Hreq0 Hav Hup Hf)
    as (w1 & r0 & Hrun & Hr0 & Hw1).
  destruct (serve_counting ip (Some (env_now e0 + 3600 * usec)) (take k rest)
              1 w1 Hw1 ltac:(lia) (Forall_take _ k _ Hall))
    as (w' & rs & Hserve & Hlen & Hthr & Hw').
  exists w', (r0 :: rs). simpl.
  rewrite (bind_returns _ _ _ _ _ Hrun), (bind_returns _ _ _ _ _ Hserve).
  split; [done|]. split; [by rewrite Hlen|]. split; [|split].
  - rewrite Hr0, Hthr, Hlen. f_equal.
    rewrite <- seq_shift, map_map. apply map_ext. intros i. f_equal. lia.
  - intros t Ht. rewrite (counting_count _ _ _ _ t Hw' Ht). f_equal.
    rewrite Hlen. lia.
  - intros e req Hreq Hlate. pose proof Hw' as (Hav' & Hup' & Hd').
    destruct (index_opens_window ip e req w' Hreq Hav' Hup')
      as (w'' & r & Hrun' & Hr & Hw'').
    { rewrite (fetch_lookup _ _ _ _ Hd'). by rewrite expired_after. }
    exists w'', r. split; [done|]. split; [done|].
    apply (window_count _ _ _ _ _ Hw''). unfold usec. lia.
Qed.

End RateLimit.

(** C7.  The window of the form-submit limiter can be lost for good.  The
    route reads the counter with one command and increments it with
    another.  Take a client whose window is open, with fewer than ten
    posts counted, and a form post of that client whose read reaches
    Redis while the key is there and whose increment reaches it after the
    key has expired.  The post is let through; the increment finds no key
    and makes a new one, holding 1, without any expiry.  From then on, at
    whatever instants the client's form posts arrive: the next nine are
    let through, every later one gets the throttling page, and the
    counter stays at the ceiling at every instant.  No window elapses any
    more, so the client is never admitted again. *)
Theorem form_window_is_lost_in_a_race `{Datetime} (ip : string) (w : world)
    (e : env) (req : request) (c closes : Z) :
  is_form_post ip req = true ->
  window w ("rate_limit:form:" +:+ ip) c closes -> 0 <= c < 10 ->
  env_read e <= closes -> closes < env_now e ->
  exists (w1 : world) (r : response),
    index e req w = (w1, Returns r)
    /\ throttled r = false
    /\ counting w1 ("rate_limit:form:" +:+ ip) 1 None
    /\ forall rest : list (env * request),
         Forall (fun er : env * request => is_form_post ip er.2 = true) rest ->
         exists (w' : world) (rs : list response),
           serve rest w1 = (w', Returns rs)
           /\ length rs = length rest
           /\ map throttled rs
              = map (fun i => 10 <=? 1 + Z.of_nat i) (seq 0 (length rest))
           /\ forall t : Z,
                rate_count t w' ("rate_limit:form:" +:+ ip)
                = Some (Z.min (1 + Z.of_nat (length rest)) 10).
Proof.
  intros Hreq Hw Hc Hread Hnow.
  destruct (index_races ip e req w c closes Hreq Hw Hread Hnow Hc)
    as (w1 & r & Hrun & Hr & Hw1).
  exists w1, r. do 3 (split; [done|]). intros rest Hrest.
  destruct (serve_counting ip None rest 1 w1 Hw1 ltac:(lia))
    as (w' & rs & Hserve & Hlen & Hthr & Hw').
  { eapply Forall_impl; [exact Hrest|]. by intros er Her. }
  exists w', rs. do 3 (split; [done|]). intros t.
  by apply (counting_count _ _ _ None).
Qed.

Section RateLimitExample.
#[local] Existing Instance sample.numeric_datetime.

Lemma form_window_is_lost_in_a_race_witness :
  exists (w1 : world) (r : response),
    index sample.straddling (sample.form_post "10.0.0.1")
      (sample.after_first_post sample.world_redis) = (w1, Returns r)
    /\ throttled r = false
    /\ counting w1 ("rate_limit:form:" +:+ "10.0.0.1") 1 None
    /\ forall rest : list (env * request),
         Forall (fun er : env * request =>
                   is_form_post "10.0.0.1" er.2 = true) rest ->
         exists (w' : world) (rs : list response),
           serve rest w1 = (w', Returns rs)
           /\ length rs = length rest
           /\ map throttled rs
              = map (fun i => 10 <=? 1 + Z.of_nat i) (seq 0 (length rest))
           /\ forall t : Z,
                rate_count t w' ("rate_limit:form:" +:+ "10.0.0.1")
                = Some (Z.min (1 + Z.of_nat (length rest)) 10).
Proof.
  apply (form_window_is_lost_in_a_race "10.0.0.1"
           (sample.after_first_post sample.world_redis) sample.straddling
           (sample.form_post "10.0.0.1") 1 (sample.sec 3600)).
  - reflexivity.
  - by vm_compute.
  - lia.
  - by vm_compute.
  - by vm_compute.
Defined.

(** The run of the sample data: the post that opens the window, the post
    that straddles its end, nine more posts, and a post a year later,
    which is still turned away. *)
Lemma a_year_later_still_throttled :
  match (serve ((sample.straddling, sample.form_post "10.0.0.1")
                :: sample.afterwards)
           (sample.after_first_post sample.world_redis)).2 with
  | Returns rs => map throttled rs
  | Raises _ => []
  end
  = (replicate 10 false ++ [true])%list.
Proof. by vm_compute. Qed.

End RateLimitExample.

(** ** Without Redis *)

Section Unlimited.
Context `{Datetime}.

Lemma cleanup_promises now : promises anything (cleanup_old_data now).
Proof. unfold cleanup_old_data. promise. Qed.

Lemma rate_limit_block_without_redis now later rate_key ceiling win rejection w :
  is_available (helper w) = false ->
  rate_limit_block now later rate_key ceiling win rejection w = (w, Returns None).
Proof. intros Hav. unfold rate_limit_block. by rewrite bind_gets, Hav. Qed.

Lemma handle_otp_verification_keeps_helper e req :
  preserves (kept helper) (handle_otp_verification e req).
Proof.
  unfold handle_otp_verification, process_verified_submission, send_email.
  preserve;
    first [ by apply track_metric_keeps | apply verify_otp_keeps_helper ].
Qed.

Lemma index_without_redis e req w :
  is_available (helper w) = false ->
  exists (w' : world) (r : response),
    index e req w = (w', Returns r)
    /\ index_unlimited e req w = (w', Returns r)
    /\ throttled r = false
    /\ is_available (helper w') = false.
Proof.
  intros Hav. unfold index, index_unlimited.
  destruct (promised _ _ w (cleanup_promises (env_now e))) as (w1 & [] & Hc & _).
  pose proof (cleanup_keeps_helper (env_now e) w) as Hh. unfold kept in Hh.
  rewrite Hc in Hh. simpl in Hh.
  rewrite !(bind_returns _ _ _ _ _ Hc).
  assert (is_available (helper w1) = false) as Hav1 by (by rewrite Hh).
  destruct (method req).
  { eexists _, _. by repeat split. }
  cbv zeta. destruct (String.eqb _ "form").
  - rewrite (bind_returns _ _ _ _ _
               (rate_limit_block_without_redis _ _ _ _ _ _ w1 Hav1)).
    destruct (promised _ _ w1 (handle_form_submission_promises e req))
      as (w' & r & Hrun & Hr).
    pose proof (handle_form_submission_keeps helper e req
                  ltac:(done) ltac:(done) ltac:(done) w1) as Hh'.
    unfold kept in Hh'. rewrite Hrun in Hh'. simpl in Hh'.
    exists w', r. repeat split; try done. by rewrite Hh'.
  - destruct (String.eqb _ "otp").
    + rewrite (bind_returns _ _ _ _ _
                 (rate_limit_block_without_redis _ _ _ _ _ _ w1 Hav1)).
      pose proof (handle_otp_verification_fallback e req w1 Hav1) as Hr.
      pose proof (handle_otp_verification_keeps_helper e req w1) as Hh'.
      unfold kept in Hh'.
      destruct (handle_otp_verification e req w1) as [w' [r|x]]; [|done].
      simpl in *. exists w', r. repeat split; try done. by rewrite Hh'.
    + eexists _, _. by repeat split.
Qed.


End Unlimited.

(** C10.  With the distributed store unavailable neither rate limit is
    enforced: whatever requests arrive, however many from one client, every
    one of them is answered by its handler and none with a throttling page --
    the route behaves as if it had no rate-limiting blocks. *)
Theorem no_rate_limit_without_redis `{Datetime} (w : world)
    (reqs : list (env * request)) :
  is_available (helper w) = false ->
  exists (w' : world) (rs : list response),
    serve reqs w = (w', Returns rs)
    /\ serve_unlimited reqs w = (w', Returns rs)
    /\ Forall (fun r => throttled r = false) rs.
Proof.
  revert w. induction reqs as [|[e req] reqs IH]; intros w Hav.
  - exists w, []. by repeat split.
  - destruct (index_without_redis e req w Hav) as (w1 & r & Hi & Hu & Hr & Hav1).
    destruct (IH w1 Hav1) as (w' & rs & Hs & Hsu & Hall).
    exists w', (r :: rs). simpl.
    rewrite (bind_returns _ _ _ _ _ Hi), (bind_returns _ _ _ _ _ Hs).
    rewrite (bind_returns _ _ _ _ _ Hu), (bind_returns _ _ _ _ _ Hsu).
    repeat split; try done. by constructor.
Qed.

Section UnlimitedExample.
#[local] Existing Instance sample.numeric_datetime.

Lemma no_rate_limit_without_redis_witness :
  exists (w' : world) (rs : list response),
    serve (sample.burst ++ sample.hammering) sample.world_fallback
    = (w', Returns rs)
    /\ serve_unlimited (sample.burst ++ sample.hammering) sample.world_fallback
       = (w', Returns rs)
    /\ Forall (fun r => throttled r = false) rs.
Proof.
  apply (no_rate_limit_without_redis sample.world_fallback
           (sample.burst ++ sample.hammering)).
  reflexivity.
Defined.

End UnlimitedExample.

(** * Further properties of the code *)

(** ** Without Redis, counting a metric does nothing *)

Lemma redis_track_metric_unusable `{Datetime} h now name v s :
  is_available h = false ->
  redis_helper.track_metric h now name v s = (s, Returns tt).
Proof.
  intros Hav. unfold redis_helper.track_metric, incr, expire, unusable.
  by rewrite Hav.
Qed.

Lemma track_metric_fallback `{Datetime} now name w :
  is_available (helper w) = false -> track_metric now name w = (w, Returns tt).
Proof.
  intros Hav. unfold track_metric. rewrite bind_gets.
  erewrite on_redis_returns by by apply redis_track_metric_unusable.
  by rewrite set_redis_same.
Qed.

(** ** The life of a code ends after five minutes *)


Section ExpiryExample.
#[local] Existing Instance sample.numeric_datetime.


End ExpiryExample.

(** ** Sweeping the in-process store *)

Lemma cleanup_fallback `{Datetime} now w :
  is_available (helper w) = false ->
  cleanup_old_data now w
  = (upd_otp_resend_cooldown
       (filter (fun kv => negb (3600 * usec <? now - kv.2)))
       (upd_otp_storage (filter (fun kv => negb (expires_at kv.2 <? now))) w),
     Returns tt).
Proof.
  intros Hav. unfold cleanup_old_data. rewrite bind_gets, Hav. reflexivity.
Qed.

Lemma swept_otp_storage now (m : gmap string otp_data) email :
  filter (fun kv : string * otp_data => negb (expires_at kv.2 <? now)) m !! email
  = match m !! email with
    | Some d => if expires_at d <? now then None else Some d
    | None => None
    end.
Proof.
  rewrite map_lookup_filter. destruct (m !! email) as [d|]; [|done]. simpl.
  by destruct (expires_at d <? now).
Qed.

Lemma swept_cooldown now (m : gmap string Z) email :
  filter (fun kv : string * Z => negb (3600 * usec <? now - kv.2)) m !! email
  = match m !! email with
    | Some t => if 3600 * usec <? now - t then None else Some t
    | None => None
    end.
Proof.
  rewrite map_lookup_filter. destruct (m !! email) as [t|]; [|done]. simpl.
  by destruct (3600 * usec <? now - t).
Qed.

(** [resend_otp] without Redis, written out. *)
Lemma resend_otp_fallback `{Datetime} e req w :
  is_available (helper w) = false ->
  resend_otp e req w
  = (let email := strip (form_get req "email" "") in
     let now := env_now e in
     let issued :=
       (upd_otp_storage
          <[email := {| otp := env_random_otp e; expires_at := now + 300 * usec;
                        attempts := 0 |}]>
          (upd_otp_resend_cooldown <[email := now]> w),
        Returns (render_template "otp" (Some email)
                   [match env_smtp e with
                    | None => NewOtpSent email
                    | Some x => OtpMailFailed x
                    end])) in
     if negb (nonempty email) then (w, Returns (redirect_index [EmailRequired]))
     else match sessions w !! sid req with
          | None => (w, Returns (redirect_index [FormDataExpired]))
          | Some fd =>
              if negb (String.eqb (app.email fd) email)
              then (w, Returns (redirect_index [FormDataExpired]))
              else match otp_resend_cooldown w !! email with
                   | Some last =>
                       if now - last <? 30 * usec
                       then (w, Returns (render_template "otp" (Some email)
                                           [WaitSeconds (whole_seconds_left (now - last))]))
                       else issued
                   | None => issued
                   end
          end).
Proof.
  intros Hav. unfold resend_otp. cbv zeta.
  destruct (negb (nonempty _)); [done|].
  rewrite bind_gets. destruct (sessions w !! sid req) as [fd|]; [|done].
  destruct (negb (String.eqb _ _)); [done|].
  rewrite bind_gets, Hav.
  set (email := strip _).
  assert (Hissue : forall w1, is_available (helper w1) = false ->
    (store_otp (env_now e) email (generate_otp e) ;;
     try_except
       (send_otp_email e email (generate_otp e) ;;
        track_metric (env_now e) "otp_resent" ;;
        ret (render_template "otp" (Some email) [NewOtpSent email]))
       (fun x =>
          track_metric (env_now e) "otp_resend_failed" ;;
          ret (render_template "otp" (Some email) [OtpMailFailed x]))) w1
    = (upd_otp_storage
         <[email := {| otp := env_random_otp e;
                       expires_at := env_now e + 300 * usec; attempts := 0 |}]> w1,
       Returns (render_template "otp" (Some email)
                  [match env_smtp e with
                   | None => NewOtpSent email
                   | Some x => OtpMailFailed x
                   end]))).
  { intros w1 Hav1.
    rewrite (bind_returns _ _ _ _ _ (store_otp_fallback _ _ _ _ Hav1)).
    set (w2 := upd_otp_storage _ w1).
    assert (Hav2 : is_available (helper w2) = false) by done.
    unfold try_except, send_otp_email, send_email, generate_otp.
    destruct (env_smtp e) as [x|].
    - unfold bind at 1 2. unfold raise at 1.
      by rewrite (bind_returns _ _ _ _ _ (track_metric_fallback _ _ _ Hav2)).
    - unfold bind at 1 2. unfold ret at 1.
      rewrite (track_metric_fallback _ _ _ Hav2).
      by rewrite (bind_returns _ _ _ _ _ (track_metric_fallback _ _ _ Hav2)). }
  unfold bind at 1. rewrite bind_gets.
  destruct (otp_resend_cooldown w !! email) as [last|].
  - destruct (env_now e - last <? 30 * usec); [done|].
    rewrite bind_modify. unfold ret at 1. by rewrite Hissue.
  - rewrite bind_modify. unfold ret at 1. by rewrite Hissue.
Qed.

(** X2. The sweep of [cleanup_old_data] is invisible to a later
    verification, but for one message: a record that had expired when the
    sweep ran answers "OTP not found" where the record left in place would
    have answered "OTP has expired".  Every other outcome, and the record
    that the verification leaves behind, are the same with and without
    the sweep; with Redis the sweep does nothing at all. *)
Theorem cleanup_hides_only_expired_codes `{Datetime} (t0 now : Z) (w : world)
    (email code : string) :
  t0 <= now ->
  let w0 := (cleanup_old_data t0 w).1 in
  let swept :=
    negb (is_available (helper w))
    && match otp_storage w !! email with
       | Some d => expires_at d <? t0
       | None => false
       end in
  (verify_otp now email code w0).2
  = (if swept then Returns (false, "OTP not found")
     else (verify_otp now email code w).2)
  /\ (swept = true ->
      (verify_otp now email code w).2 = Returns (false, "OTP has expired"))
  /\ otp_storage (verify_otp now email code w0).1 !! email
     = otp_storage (verify_otp now email code w).1 !! email.
Proof.
  intros Ht. cbv zeta. destruct (is_available (helper w)) eqn:Hav.
  - rewrite cleanup_redis_mode by done. done.
  - rewrite cleanup_fallback by done. cbn [fst negb andb].
    rewrite !verify_otp_fallback by done. cbn [otp_storage upd_otp_storage
      upd_otp_resend_cooldown]. rewrite swept_otp_storage.
    destruct (otp_storage w !! email) as [d|] eqn:Hd.
    2:{ cbn. by rewrite swept_otp_storage, Hd. }
    destruct (expires_at d <? t0) eqn:He.
    + replace (expires_at d <? now) with true by (symmetry; lia).
      cbn. by rewrite lookup_delete_eq, swept_otp_storage, Hd, He.
    + destruct (expires_at d <? now), (3 <=? attempts d),
        (String.eqb (otp d) code); cbn;
        by rewrite ?lookup_delete_eq, ?lookup_insert_eq.
Qed.

Section CleanupExamples.
#[local] Existing Instance sample.numeric_datetime.

Lemma cleanup_hides_only_expired_codes_witness :
  let w := (store_otp 0 "a@x.com" "123456" sample.world_fallback).1 in
  let w0 := (cleanup_old_data (sample.sec 301) w).1 in
  (verify_otp (sample.sec 302) "a@x.com" "123456" w0).2
  = Returns (false, "OTP not found")
  /\ (true = true ->
      (verify_otp (sample.sec 302) "a@x.com" "123456" w).2
      = Returns (false, "OTP has expired"))
  /\ otp_storage (verify_otp (sample.sec 302) "a@x.com" "123456" w0).1 !! "a@x.com"
     = otp_storage (verify_otp (sample.sec 302) "a@x.com" "123456" w).1 !! "a@x.com".
Proof.
  apply (cleanup_hides_only_expired_codes (sample.sec 301) (sample.sec 302)
           (store_otp 0 "a@x.com" "123456" sample.world_fallback).1
           "a@x.com" "123456").
  vm_compute. discriminate.
Defined.

End CleanupExamples.

(** X3. The sweep never shortens a cooldown: an entry is dropped only when
    it is more than an hour old, far beyond the thirty seconds that
    [resend_otp] looks at, so a request to resend is answered exactly as
    it would have been without the sweep. *)
Theorem cleanup_keeps_cooldown `{Datetime} (t0 : Z) (e : env) (req : request)
    (w : world) :
  t0 <= env_now e ->
  (resend_otp e req (cleanup_old_data t0 w).1).2 = (resend_otp e req w).2.
Proof.
  intros Ht. destruct (is_available (helper w)) eqn:Hav.
  - by rewrite cleanup_redis_mode.
  - rewrite cleanup_fallback by done. cbn [fst].
    rewrite !resend_otp_fallback by done. cbv zeta.
    set (email := strip _).
    cbn [sessions otp_resend_cooldown upd_otp_storage upd_otp_resend_cooldown].
    destruct (negb (nonempty email)); [done|].
    destruct (sessions w !! sid req) as [fd|]; [|done].
    destruct (negb (String.eqb (app.email fd) email)); [done|].
    rewrite swept_cooldown.
    destruct (otp_resend_cooldown w !! email) as [t|] eqn:Hc; [|done].
    destruct (3600 * usec <? t0 - t) eqn:Hold.
    + by replace (env_now e - t <? 30 * usec) with false
        by (symmetry; unfold usec in *; lia).
    + by destruct (env_now e - t <? 30 * usec).
Qed.

Section CooldownSweepExample.
#[local] Existing Instance sample.numeric_datetime.

Lemma cleanup_keeps_cooldown_witness :
  let w := sample.after_resend sample.world_fallback in
  let e := sample.the_env (sample.sec 11) "333333" in
  (resend_otp e sample.resend_post (cleanup_old_data (sample.sec 10) w).1).2
  = (resend_otp e sample.resend_post w).2.
Proof.
  apply (cleanup_keeps_cooldown (sample.sec 10)
           (sample.the_env (sample.sec 11) "333333") sample.resend_post
           (sample.after_resend sample.world_fallback)).
  vm_compute. discriminate.
Defined.

End CooldownSweepExample.

(** ** The handlers of the two steps *)

Import outcomes.



Section FormHandlerExample.
#[local] Existing Instance sample.numeric_datetime.


End FormHandlerExample.

Section OtpHandler.
Context `{Datetime}.

Lemma verify_otp_keeps_sessions now email code :
  preserves (kept sessions) (verify_otp now email code).
Proof.
  unfold verify_otp. preserve. all: by apply kept_modify.
Qed.




End OtpHandler.


Section OtpHandlerExample.
#[local] Existing Instance sample.numeric_datetime.


End OtpHandlerExample.

(** X6. A verification that finds no record shows the backend to the
    user.  With Redis the message is "OTP not found or expired"; it
    contains the word "expired", so the handler drops the form data from
    the session and answers with the form page.  Without Redis the
    message is "OTP not found"; the handler keeps the session and stays on
    the OTP page.  A post whose address or code is blank after stripping is
    answered on the OTP page without a verification and without any
    change. *)
Theorem missing_record_page_depends_on_backend `{Datetime} (e : env)
    (req : request) (w : world) :
  let email := strip (form_get req "email" "") in
  let code := strip (form_get req "otp" "") in
  has_record (env_now e) w email = false ->
  handle_otp_verification e req w
  = if negb (nonempty email) || negb (nonempty code) then
      (w, Returns (render_template "otp" (Some email) [EnterCode]))
    else if is_available (helper w) then
      (upd_sessions (base.delete (sid req)) w,
       Returns (render_template "form" None
                  [VerificationError "OTP not found or expired"]))
    else
      (w, Returns (render_template "otp" (Some email)
                     [VerificationError "OTP not found"])).
Proof.
  intros email code. unfold has_record, handle_otp_verification. cbv zeta.
  fold email code. intros Hrec.
  destruct (negb (nonempty email) || negb (nonempty code)); [done|].
  destruct (is_available (helper w)) eqn:Hav.
  - destruct (fetch _ _ _) eqn:Hf; [done|].
    by rewrite (bind_returns _ _ _ _ _
                  (verify_otp_redis_absent _ _ code _ Hav Hf)).
  - destruct (otp_storage w !! email) eqn:Hd; [done|].
    unfold bind at 1. by rewrite verify_otp_fallback, Hd.
Qed.

Section MissingRecordExample.
#[local] Existing Instance sample.numeric_datetime.

Lemma missing_record_page_depends_on_backend_witness :
  handle_otp_verification (sample.the_env (sample.sec 60) "222222")
    (sample.otp_post "10.0.0.1" "111111") sample.world_fallback
  = (sample.world_fallback,
     Returns (render_template "otp" (Some "a@x.com")
                [VerificationError "OTP not found"])).
Proof.
  apply (missing_record_page_depends_on_backend
           (sample.the_env (sample.sec 60) "222222")
           (sample.otp_post "10.0.0.1" "111111") sample.world_fallback).
  reflexivity.
Defined.

End MissingRecordExample.

(** X7. A wrong code, seen from the OTP page.  While the limit is not
    reached the handler stays on the OTP page, keeps the form data in the
    session and counts the attempt; the message carries the attempts that
    remain with Redis and none without.  At the limit (the third wrong
    code with Redis; the call that finds three counted attempts without)
    the record is deleted, the form data are dropped from the session and
    the user is sent back to the form. *)
Theorem wrong_code_page `{Datetime} (e : env) (req : request) (w : world)
    (stored : string) (n : Z) :
  let email := strip (form_get req "email" "") in
  let code := strip (form_get req "otp" "") in
  let redis_mode := is_available (helper w) in
  nonempty email = true -> nonempty code = true ->
  otp_record (env_now e) w email = Some (stored, n) ->
  code <> stored -> 0 <= n ->
  exists w' : world,
    if n <? (if redis_mode then 2 else 3) then
      handle_otp_verification e req w
      = (w', Returns (render_template "otp" (Some email)
                        [VerificationError
                           (if redis_mode
                            then "Invalid OTP. " +:+ str_of_int (2 - n)
                                 +:+ " attempt(s) remaining"
                            else "Invalid OTP")]))
      /\ sessions w' = sessions w
      /\ otp_record (env_now e) w' email = Some (stored, n + 1)
    else
      handle_otp_verification e req w
      = (w', Returns (render_template "form" None
                        [VerificationError "Too many incorrect attempts"]))
      /\ sessions w' = base.delete (sid req) (sessions w)
      /\ forall t : Z, has_record t w' email = false.
Proof.
  intros email code redis_mode Hne Hnc Hrec Hcode Hn.
  pose proof (preserves_at _ _ w
                (verify_otp_keeps_sessions (env_now e) email code)) as Hs.
  unfold handle_otp_verification. cbv zeta. fold email code.
  rewrite Hne, Hnc. cbn [negb orb].
  revert Hrec. unfold otp_record, has_record. subst redis_mode.
  destruct (is_available (helper w)) eqn:Hav.
  - destruct (up (redis w)) eqn:Hup; [|done].
    destruct (fetch (env_now e) (db (redis w)) ("otp:" +:+ email))
      as [[[v|hh] ex]|] eqn:Hf; [done| |done].
    destruct (hh !! "otp") as [c|] eqn:Ho; [|done].
    destruct (hh !! "attempts") as [a|] eqn:Ha; [|done].
    destruct (int_of_str a) as [m|] eqn:Hm; [|done].
    intros [= -> ->].
    assert (Hc : hh !! "otp" <> Some code) by congruence.
    destruct (n <? 2) eqn:Hlt.
    + destruct (verify_otp_redis_wrong (env_now e) email code w hh ex a n)
        as (w' & Hv & Hh & Hu & Hd); [done..|lia|].
      rewrite Hv in Hs. exists w'.
      rewrite (bind_returns _ _ _ _ _ Hv). cbn [negb]. cbv beta iota.
      assert (Hpage : contains "expired"
                        (lower ("Invalid OTP. " +:+ str_of_int (2 - n)
                                +:+ " attempt(s) remaining"))
                      || contains "too many"
                           (lower ("Invalid OTP. " +:+ str_of_int (2 - n)
                                   +:+ " attempt(s) remaining")) = false).
      { assert (n = 0 \/ n = 1) as [-> | ->] by lia; by vm_compute. }
      rewrite Hpage. do 2 (split; [done|]).
      rewrite Hh, Hav, Hu.
      destruct (fetch_live _ _ _ _ Hf) as [_ Hl].
      unfold fetch. rewrite Hd. change (live (env_now e) (Entry _ ex))
        with (live (env_now e) (Entry (RHash hh) ex)). rewrite Hl.
      rewrite lookup_insert_ne by done. rewrite Ho, lookup_insert_eq.
      by rewrite int_of_str_of_int.
    + destruct (verify_otp_redis_locked (env_now e) email code w hh ex a n)
        as (w' & Hv & Hh & Hu & Hd); [done..|lia|].
      rewrite Hv in Hs. eexists.
      rewrite (bind_returns _ _ _ _ _ Hv). cbn [negb]. cbv beta iota.
      change (contains "expired" (lower "Too many incorrect attempts")
              || contains "too many" (lower "Too many incorrect attempts"))
        with true. cbv iota. rewrite bind_modify.
      unfold kept in Hs. cbn in Hs.
      split; [reflexivity|]. split; [cbn; by rewrite Hs|].
      intros t. cbn. rewrite Hh, Hav. unfold fetch. by rewrite Hd.
  - destruct (otp_storage w !! email) as [d|] eqn:Hd; [|done].
    destruct (expires_at d <? env_now e) eqn:He; [done|]. intros [= Ho Ha].
    pose proof (verify_otp_fallback (env_now e) email code w Hav) as Hv.
    rewrite Hd, He, Ha, Ho in Hv.
    replace (3 <=? n) with (negb (n <? 3)) in Hv by lia.
    assert (String.eqb stored code = false) as Hneq
      by (apply String.eqb_neq; congruence).
    rewrite Hneq in Hv.
    destruct (n <? 3) eqn:Hlt; cbn [negb] in Hv;
      rewrite (bind_returns _ _ _ _ _ Hv); cbn [negb]; cbv beta iota.
    + eexists. split; [reflexivity|]. split; [done|]. cbn.
      by rewrite Hav, lookup_insert_eq; cbn; rewrite He.
    + eexists.
      change (contains "expired" (lower "Too many incorrect attempts")
              || contains "too many" (lower "Too many incorrect attempts"))
        with true. cbv iota. rewrite bind_modify.
      split; [reflexivity|]. split; [done|].
      intros t. cbn. by rewrite Hav, lookup_delete_eq.
Qed.

Section WrongCodeExample.
#[local] Existing Instance sample.numeric_datetime.

Lemma wrong_code_page_witness :
  exists w' : world,
    handle_otp_verification (sample.the_env (sample.sec 60) "222222")
      (sample.otp_post "10.0.0.1" "000000") (sample.after_form sample.world_redis)
    = (w', Returns (render_template "otp" (Some "a@x.com")
                      [VerificationError "Invalid OTP. 2 attempt(s) remaining"]))
    /\ sessions w' = sessions (sample.after_form sample.world_redis)
    /\ otp_record (sample.sec 60) w' "a@x.com" = Some ("111111", 1).
Proof.
  apply (wrong_code_page (sample.the_env (sample.sec 60) "222222")
           (sample.otp_post "10.0.0.1" "000000")
           (sample.after_form sample.world_redis) "111111" 0);
    first [ reflexivity | discriminate | lia ].
Defined.

End WrongCodeExample.

(** ** Who may ask for another code *)

(** X8. [resend_otp] issues nothing unless the session holds form data for
    the very address of the request: a blank address, a session without
    form data, or form data for another address are answered with a
    redirect, and nothing is stored, mailed or counted. *)
Theorem resend_needs_the_session_of_the_address `{Datetime} (e : env)
    (req : request) (w : world) :
  can_resend w req (strip (form_get req "email" "")) = false ->
  exists f : flash, resend_otp e req w = (w, Returns (redirect_index [f])).
Proof.
  unfold can_resend, resend_otp. cbv zeta. rewrite String.eqb_refl.
  destruct (nonempty (strip (form_get req "email" ""))); cbn [negb andb];
    [|by eexists].
  rewrite bind_gets.
  destruct (sessions w !! sid req) as [fd|]; [|by eexists].
  intros ->. cbn [negb]. by eexists.
Qed.

Section ResendGuardExample.
#[local] Existing Instance sample.numeric_datetime.

Lemma resend_needs_the_session_of_the_address_witness :
  exists f : flash,
    resend_otp (sample.the_env (sample.sec 1) "222222") sample.resend_post
      sample.world_redis
    = (sample.world_redis, Returns (redirect_index [f])).
Proof.
  apply (resend_needs_the_session_of_the_address
           (sample.the_env (sample.sec 1) "222222") sample.resend_post
           sample.world_redis).
  reflexivity.
Defined.

End ResendGuardExample.

(** ** Counting metrics *)

Lemma append_cancel (p a b : string) : p +:+ a = p +:+ b -> a = b.
Proof.
  induction p as [|c p IH]; [done|]. intros Heq. apply IH.
  change (String c (p +:+ a) = String c (p +:+ b)) in Heq. by injection Heq.
Qed.

Lemma incr_counts h now s name amount c :
  is_available h = true -> up s = true ->
  counter now s name = Some c ->
  in_int64 amount && in_int64 c && in_int64 (c + amount) = true ->
  exists ex : option Z,
    incr h now name amount s
    = (with_db <[name := Entry (RString (str_of_int (c + amount))) ex]> s,
       Returns (Some (c + amount)))
    /\ forall v, live now (Entry v ex) = true.
Proof.
  intros Hh Hup Hc Hb. unfold counter in Hc.
  apply andb_prop in Hb as [Hb Hb3]. apply andb_prop in Hb as [Hb1 Hb2].
  generalize (usable h Hh). helper_cases h. intros _. rewrite Hup, Hb1.
  cbn [negb].
  destruct (fetch now (db s) name) as [[[v|hh] ex]|] eqn:Hf; [| done |].
  - rewrite Hc, Hb2, Hb3. cbn. unfold int_str. rewrite int_of_str_of_int.
    exists ex. split; [done|]. intros v'.
    by destruct (fetch_live _ _ _ _ Hf) as [_ Hl].
  - injection Hc as <-. cbn. unfold int_str. rewrite int_of_str_of_int.
    by exists None.
Qed.

(** X9. With Redis at hand, [track_metric] adds [value] to the counter of
    the hour and to the counter of the day (a counter that is absent
    starts from 0) and sets their lives to 7 and to 30 days from now; it
    touches no other key. *)
Theorem track_metric_counts `{Datetime} (h : RedisHelper) (now : Z)
    (s : server) (name : string) (value ch cd : Z) :
  let hour_key := "metrics:" +:+ name +:+ ":" +:+ strftime_hour now in
  let day_key := "metrics:" +:+ name +:+ ":" +:+ strftime_day now in
  is_available h = true -> up s = true ->
  strftime_hour now <> strftime_day now ->
  counter now s hour_key = Some ch ->
  counter now s day_key = Some cd ->
  in_int64 value && in_int64 ch && in_int64 (ch + value) = true ->
  in_int64 value && in_int64 cd && in_int64 (cd + value) = true ->
  exists s' : server,
    redis_helper.track_metric h now name value s = (s', Returns tt)
    /\ up s' = true
    /\ db s' !! hour_key
       = Some (Entry (RString (str_of_int (ch + value)))
                 (Some (now + 86400 * 7 * usec)))
    /\ db s' !! day_key
       = Some (Entry (RString (str_of_int (cd + value)))
                 (Some (now + 86400 * 30 * usec)))
    /\ forall k, k <> hour_key -> k <> day_key -> db s' !! k = db s !! k.
Proof.
  intros hour_key day_key Hh Hup Hdiff Hch Hcd Hbh Hbd.
  assert (Hne : hour_key <> day_key).
  { intros Heq. by do 3 apply append_cancel in Heq. }
  unfold redis_helper.track_metric. cbv zeta. fold hour_key day_key.
  destruct (incr_counts h now s hour_key value ch Hh Hup Hch Hbh)
    as (ex1 & Hi1 & Hl1).
  rewrite (bind_returns _ _ _ _ _ Hi1). set (s1 := with_db _ s).
  assert (Hup1 : up s1 = true) by done.
  rewrite (bind_returns _ _ _ _ _
             (expire_answer h now s1 Hh Hup1 hour_key (86400 * 7) _ ex1
                (fetch_insert_eq _ _ _ _ (Hl1 _)) eq_refl)).
  set (s2 := with_db _ s1).
  assert (Hup2 : up s2 = true) by done.
  assert (Hcd2 : counter now s2 day_key = Some cd).
  { rewrite <- Hcd. unfold counter.
    rewrite (fetch_same now (db s) (db s2) day_key); [done|].
    subst s2 s1. cbn. by rewrite !lookup_insert_ne. }
  destruct (incr_counts h now s2 day_key value cd Hh Hup2 Hcd2 Hbd)
    as (ex2 & Hi2 & Hl2).
  rewrite (bind_returns _ _ _ _ _ Hi2). set (s3 := with_db _ s2).
  assert (Hup3 : up s3 = true) by done.
  rewrite (bind_returns _ _ _ _ _
             (expire_answer h now s3 Hh Hup3 day_key (86400 * 30) _ ex2
                (fetch_insert_eq _ _ _ _ (Hl2 _)) eq_refl)).
  eexists. split; [reflexivity|]. split; [done|]. subst s3 s2 s1. cbn.
  split; [|split].
  - by rewrite !(lookup_insert_ne _ day_key hour_key), lookup_insert_eq.
  - by rewrite lookup_insert_eq.
  - intros k Hk1 Hk2. by rewrite !lookup_insert_ne.
Qed.

Section CountingExample.
#[local] Existing Instance sample.numeric_datetime.

Lemma track_metric_counts_witness :
  let now := sample.sec 7200 in
  let hour_key := "metrics:" +:+ "otp_generated" +:+ ":" +:+ strftime_hour now in
  let day_key := "metrics:" +:+ "otp_generated" +:+ ":" +:+ strftime_day now in
  exists s' : server,
    redis_helper.track_metric sample.helper_redis now "otp_generated" 1
      sample.server_up = (s', Returns tt)
    /\ up s' = true
    /\ db s' !! hour_key
       = Some (Entry (RString (str_of_int (0 + 1))) (Some (now + 86400 * 7 * usec)))
    /\ db s' !! day_key
       = Some (Entry (RString (str_of_int (0 + 1))) (Some (now + 86400 * 30 * usec)))
    /\ forall k, k <> hour_key -> k <> day_key ->
         db s' !! k = db sample.server_up !! k.
Proof.
  intros now hour_key day_key.
  apply (track_metric_counts sample.helper_redis now sample.server_up
           "otp_generated" 1 0 0).
  - reflexivity.
  - reflexivity.
  - by vm_compute.
  - by vm_compute.
  - by vm_compute.
  - by vm_compute.
  - by vm_compute.
Defined.

End CountingExample.

(** ** The rate-limit windows of the route, under mixed traffic *)

Lemma scope_key_not_otp sc ip : String.prefix "otp:" (scope_key sc ip) = false.
Proof. by destruct sc. Qed.

Lemma scope_key_not_metrics sc ip :
  String.prefix "metrics:" (scope_key sc ip) = false.
Proof. by destruct sc. Qed.

Lemma scope_key_inj sc ip sc' ip' :
  scope_key sc ip = scope_key sc' ip' -> sc = sc' /\ ip = ip'.
Proof.
  destruct sc, sc'; unfold scope_key.
  - intros Heq. by apply append_cancel in Heq.
  - cbv [String.append]. by intros [= ?].
  - cbv [String.append]. by intros [= ?].
  - intros Heq. by apply append_cancel in Heq.
Qed.

Lemma promises_grants {A : Type} (P : A -> Prop) (m : M world A) :
  promises P m -> grants P m.
Proof. intros Hm w. specialize (Hm w). by destruct (m w).2. Qed.

Lemma window_kept w w' k c closes :
  window w k c closes -> helper w' = helper w ->
  away k (redis w) (redis w') -> window w' k c closes.
Proof. intros (Hav & Hup & Hd) Hh [Hu Hk]. repeat split; congruence. Qed.

Section Windows.
Context `{Datetime}.

Lemma rate_limit_block_keeps_key k read now rate_key ceiling win rejection :
  k <> rate_key ->
  preserves (key_kept k)
    (rate_limit_block read now rate_key ceiling win rejection).
Proof. intros Hk. unfold rate_limit_block. preserve; key_facts. Qed.

Lemma cleanup_keeps_key k now : preserves (key_kept k) (cleanup_old_data now).
Proof. unfold cleanup_old_data. preserve. Qed.

Lemma handle_otp_verification_keeps_key k e req :
  String.prefix "otp:" k = false -> String.prefix "metrics:" k = false ->
  preserves (key_kept k) (handle_otp_verification e req).
Proof.
  intros Ho Hm.
  assert (forall x, k <> "otp:" +:+ x) as Hne.
  { intros x ->. by rewrite otp_prefix in Ho. }
  pose proof (Hne (strip (form_get req "email" ""))) as Hk.
  unfold handle_otp_verification, process_verified_submission, send_email.
  preserve;
    first [ by apply verify_otp_keeps_key | by apply track_metric_away
          | key_facts ].
Qed.

Lemma scope_handler_keeps_key sc k e req :
  String.prefix "otp:" k = false -> String.prefix "metrics:" k = false ->
  preserves (key_kept k) (scope_handler sc e req).
Proof.
  destruct sc; [apply handle_form_submission_keeps_key
               |apply handle_otp_verification_keeps_key].
Qed.

Lemma scope_handler_keeps_helper sc e req :
  preserves (kept helper) (scope_handler sc e req).
Proof.
  destruct sc; [by apply handle_form_submission_keeps
               |apply handle_otp_verification_keeps_helper].
Qed.

Lemma handle_otp_verification_grants e req :
  grants (fun r => throttled r = false) (handle_otp_verification e req).
Proof.
  unfold handle_otp_verification.
  destruct (negb _ || negb _); [by apply grants_ret|].
  apply grants_bind. intros [is_valid message]. destruct is_valid; simpl.
  - apply grants_bind. intros [fd|]; [|by apply grants_ret].
    apply promises_grants, process_verified_submission_promises.
  - destruct (_ || _); [apply grants_bind; intros ?|]; by apply grants_ret.
Qed.

Lemma scope_handler_grants sc e req :
  grants (fun r => throttled r = false) (scope_handler sc e req).
Proof.
  destruct sc; [apply promises_grants, handle_form_submission_promises
               |apply handle_otp_verification_grants].
Qed.

(** The handler of a scope does not throttle and keeps the window. *)
Lemma scope_handler_in_window sc ip e req w c closes :
  window w (scope_key sc ip) c closes ->
  turned_away (scope_handler sc e req w).2 = false
  /\ window (scope_handler sc e req w).1 (scope_key sc ip) c closes.
Proof.
  intros Hw. split.
  - pose proof (scope_handler_grants sc e req w) as Hg.
    by destruct (scope_handler sc e req w).2.
  - eapply window_kept; [exact Hw|apply scope_handler_keeps_helper|].
    apply scope_handler_keeps_key;
      [apply scope_key_not_otp|apply scope_key_not_metrics].
Qed.

Lemma index_post sc ip e req w :
  is_post sc ip req = true -> is_available (helper w) = true ->
  index e req w
  = (let! rejected :=
       rate_limit_block (env_read e) (env_now e) (scope_key sc ip)
         (scope_ceiling sc) (scope_window sc) (scope_rejection sc) in
     match rejected with
     | Some r => ret r
     | None => scope_handler sc e req
     end) w.
Proof.
  unfold is_post. intros Hreq Hav. unfold index.
  rewrite (bind_returns _ _ _ _ _ (cleanup_redis_mode (env_now e) w Hav)).
  destruct (method req); [done|].
  apply andb_prop in Hreq as [Hstep Hip].
  apply String.eqb_eq in Hip. apply String.eqb_eq in Hstep.
  rewrite Hstep, Hip. by destruct sc.
Qed.

(** A post that finds no key opens the window. *)
Lemma post_opens_window sc ip e req w :
  is_post sc ip req = true ->
  is_available (helper w) = true -> up (redis w) = true ->
  db (redis w) !! scope_key sc ip = None ->
  turned_away (index e req w).2 = false
  /\ window (index e req w).1 (scope_key sc ip) 1
       (env_now e + scope_window sc * usec).
Proof.
  intros Hreq Hav Hup Hd. rewrite (index_post sc ip e req w Hreq Hav).
  cbv zeta.
  erewrite bind_returns
    by (apply rate_limit_block_opens; [done|done|by destruct sc|];
        unfold fetch; by rewrite Hd).
  apply scope_handler_in_window. destruct w; simpl in *.
  repeat split; [done..|]. apply lookup_insert_eq.
Qed.

(** A post inside the window is counted, or turned away at the ceiling. *)
Lemma post_in_window sc ip e req w c closes :
  is_post sc ip req = true ->
  window w (scope_key sc ip) c closes ->
  env_read e <= closes -> env_now e <= closes -> 1 <= c <= scope_ceiling sc ->
  turned_away (index e req w).2 = (scope_ceiling sc <=? c)
  /\ window (index e req w).1 (scope_key sc ip)
       (Z.min (c + 1) (scope_ceiling sc)) closes.
Proof.
  intros Hreq Hw Hnow Hlater Hc. pose proof Hw as (Hav & Hup & Hd).
  rewrite (index_post sc ip e req w Hreq Hav). cbv zeta.
  destruct (Z.leb_spec (scope_ceiling sc) c) as [Hfull|Hroom].
  - erewrite bind_returns
      by (by eapply (rate_limit_block_rejects _ _ _ _ _ _ _ c (Some closes))).
    split; [by destruct sc|].
    by replace (Z.min (c + 1) (scope_ceiling sc)) with c by lia.
  - erewrite bind_returns
      by (eapply (rate_limit_block_counts _ _ _ _ _ _ _ c (Some closes));
          [exact Hw|done|done|lia|by destruct sc]).
    replace (Z.min (c + 1) (scope_ceiling sc)) with (c + 1) by lia.
    apply scope_handler_in_window. destruct w; simpl in *.
    repeat split; [done..|]. apply lookup_insert_eq.
Qed.

(** Any other request leaves the key of the window alone. *)
Lemma bystander_keeps_key sc ip e req w :
  is_post sc ip req = false ->
  key_kept (scope_key sc ip) w (index e req w).1.
Proof.
  intros Hreq. apply preserves_at. unfold index.
  apply preserves_bind; [typeclasses eauto|apply cleanup_keeps_key|intros _].
  unfold is_post in Hreq. destruct (method req); [apply preserves_ret; typeclasses eauto|].
  destruct (String.eqb (form_get req "step" "form") "form") eqn:Hform.
  - apply preserves_bind; [typeclasses eauto| |intros [r|]].
    + apply rate_limit_block_keeps_key. intros Heq.
      apply (scope_key_inj sc ip FormScope) in Heq as [-> Hip]; subst ip.
      cbn in Hreq. by rewrite Hform, String.eqb_refl in Hreq.
    + apply preserves_ret; typeclasses eauto.
    + apply (scope_handler_keeps_key FormScope);
        [apply scope_key_not_otp|apply scope_key_not_metrics].
  - destruct (String.eqb (form_get req "step" "form") "otp") eqn:Hotp;
      [|apply preserves_ret; typeclasses eauto].
    apply preserves_bind; [typeclasses eauto| |intros [r|]].
    + apply rate_limit_block_keeps_key. intros Heq.
      apply (scope_key_inj sc ip OtpScope) in Heq as [-> Hip]; subst ip.
      cbn in Hreq. by rewrite Hotp, String.eqb_refl in Hreq.
    + apply preserves_ret; typeclasses eauto.
    + apply (scope_handler_keeps_key OtpScope);
        [apply scope_key_not_otp|apply scope_key_not_metrics].
Qed.

Lemma counted_from sc c n :
  map (fun i => scope_ceiling sc <=? Z.min (c + 1) (scope_ceiling sc) + Z.of_nat i)
    (seq 0 n)
  = map (fun i => scope_ceiling sc <=? c + Z.of_nat i) (seq 1 n).
Proof.
  rewrite <- seq_shift, map_map. apply map_ext. intros i.
  destruct (Z.leb_spec (scope_ceiling sc)
              (Z.min (c + 1) (scope_ceiling sc) + Z.of_nat i)),
    (Z.leb_spec (scope_ceiling sc) (c + Z.of_nat (S i))); lia.
Qed.

Lemma served_in_window sc ip closes reqs : forall (c : Z) (w : world),
  window w (scope_key sc ip) c closes -> 1 <= c <= scope_ceiling sc ->
  all_by sc ip closes reqs ->
  verdicts sc ip reqs (serve_all reqs w)
  = map (fun i => scope_ceiling sc <=? c + Z.of_nat i)
      (seq 0 (posts sc ip reqs)).
Proof.
  induction reqs as [|[e req] reqs IH]; intros c w Hw Hc Hall; [done|].
  apply Forall_cons in Hall as [Hnow Hall]. cbn in Hnow. cbn.
  destruct (is_post sc ip req) eqn:Hreq.
  - destruct (Hnow eq_refl) as [Hread Hwrite].
    destruct (post_in_window sc ip e req w c closes Hreq Hw Hread Hwrite Hc)
      as [Hturn Hw1].
    rewrite Hturn. cbn. rewrite Z.add_0_r. f_equal.
    rewrite (IH _ _ Hw1) by (done || lia). apply counted_from.
  - apply (IH c); [|done..].
    eapply window_kept; [exact Hw|apply index_keeps_helper|].
    by apply bystander_keeps_key.
Qed.

End Windows.

(** X10. Each rate-limit window of the route ["/"] counts the posts of
    its own scope and client, and nothing else.  Take any requests,
    served one after the other with Redis at hand, such that no key is
    held for the scope (form submissions, ceiling 10 in an hour; OTP
    verifications, ceiling 15 in five minutes) and the client, and such
    that the client's posts of that scope read and write the counter
    within the window that the first of them opens.  Then these posts are
    let through up to the
    ceiling and turned away after it, whatever other requests -- posts
    of the other scope, of other clients, page loads -- come in between
    and whatever the handlers do, raise included. *)
Theorem windows_count_their_own_posts `{Datetime} (sc : scope) (ip : string)
    (reqs : list (env * request)) (w : world) :
  is_available (helper w) = true -> up (redis w) = true ->
  db (redis w) !! scope_key sc ip = None ->
  in_one_window sc ip reqs ->
  verdicts sc ip reqs (serve_all reqs w)
  = map (fun i => scope_ceiling sc <=? Z.of_nat i) (seq 0 (posts sc ip reqs)).
Proof.
  unfold in_one_window. revert w.
  induction reqs as [|[e req] reqs IH]; intros w Hav Hup Hd Hall; [done|].
  cbn in *. destruct (is_post sc ip req) eqn:Hreq.
  - destruct (post_opens_window sc ip e req w Hreq Hav Hup Hd) as [Hturn Hw1].
    rewrite Hturn. apply Forall_cons in Hall as [_ Hall].
    cbn. f_equal; [by destruct sc|].
    rewrite (served_in_window sc ip _ reqs 1 _ Hw1) by (done || by destruct sc).
    rewrite <- seq_shift, map_map. apply map_ext. intros i. f_equal. lia.
  - pose proof (bystander_keeps_key sc ip e req w Hreq) as [Hu Hk].
    pose proof (preserves_at _ _ w (index_keeps_helper e req)) as Hh.
    unfold kept in Hh. apply IH; [congruence..|].
    destruct (opening sc ip reqs); [|done].
    by apply Forall_cons in Hall as [_ Hall].
Qed.

Section WindowsExample.
#[local] Existing Instance sample.numeric_datetime.

Lemma windows_count_their_own_posts_witness :
  verdicts OtpScope "10.0.0.1" sample.hammering
    (serve_all sample.hammering sample.world_redis)
  = map (fun i => scope_ceiling OtpScope <=? Z.of_nat i)
      (seq 0 (posts OtpScope "10.0.0.1" sample.hammering)).
Proof.
  apply (windows_count_their_own_posts OtpScope "10.0.0.1" sample.hammering
           sample.world_redis).
  - by vm_compute.
  - by vm_compute.
  - by vm_compute.
  - unfold in_one_window, all_by.
    replace (opening OtpScope "10.0.0.1" sample.hammering)
      with (Some (sample.sec 60)) by by vm_compute.
    apply Forall_forall. intros er Her _.
    unfold sample.hammering in Her.
    apply elem_of_cons in Her as [->|Her]; [by vm_compute|].
    apply elem_of_replicate in Her as [-> _]. by vm_compute.
Defined.

End WindowsExample.
